(** * Donther e-bike simulations: battery state of charge and BLDC generator

    Shallow embedding of [battery_simulation.py] and
    [BLDC_motor_simulation.py], in two models.  In the first, Python
    floats are idealised as real numbers ([R]): every arithmetic operation
    is exact.  It carries the properties that say which formula the code
    evaluates.  The second ([B64]) is the battery simulation over binary64
    floats, rounding as the interpreter does; it carries the properties
    on which rounding bears: step counts, exceptions and the range of the
    recorded values.  Python exceptions are explicit: a computation
    returns [inl e] when the interpreter would raise [e]. *)

From Stdlib Require Import Floats Uint63.
From Stdlib Require Import Reals List ZArith Lia Lra Bool.
Import ListNotations.
Local Open Scope R_scope.
#[local] Set Warnings "-inexact-float".

(** ** Python values and exceptions *)

Inductive PyError : Set :=
| ZeroDivisionError
| ValueError
| IndexError.

Definition result (A : Type) : Type := (PyError + A)%type.

Definition ret {A : Type} (a : A) : result A := inr a.
Definition raise {A : Type} (e : PyError) : result A := inl e.

Definition bind {A B : Type} (c : result A) (k : A -> result B) : result B :=
  match c with
  | inl e => inl e
  | inr a => k a
  end.

Notation "x <- c ;; k" := (bind c (fun x => k))
  (at level 61, c at next level, right associativity).

(** [a / b] on Python numbers. *)
Definition py_div (a b : R) : result R :=
  if Req_dec_T b 0 then raise ZeroDivisionError else ret (a / b).

(** [int(x)]: truncation towards zero. *)
Definition py_int (x : R) : Z :=
  if Rle_dec 0 x then Int_part x else (- Int_part (- x))%Z.

(** The builtin [max(a, b)] keeps [a] unless [b] is greater; [min(a, b)]
    keeps [a] unless [b] is smaller. *)
Definition py_max (a b : R) : R := if Rlt_dec a b then b else a.
Definition py_min (a b : R) : R := if Rlt_dec b a then b else a.

(** [l[i]] for [i >= 0]. *)
Definition index (l : list R) (i : nat) : result R :=
  match nth_error l i with
  | Some x => ret x
  | None => raise IndexError
  end.

(** [range(n)] *)
Definition range (n : Z) : list nat := seq 0 (Z.to_nat n).

(** [for i in idxs: s = body(i, s)] *)
Fixpoint for_each {S : Type} (body : nat -> S -> result S)
  (idxs : list nat) (s : S) : result S :=
  match idxs with
  | [] => ret s
  | i :: rest => s' <- body i s ;; for_each body rest s'
  end.

(** ** The numpy functions the scripts call *)

Module np.

(** [np.full(n, v)] *)
Definition full (n : Z) (v : R) : result (list R) :=
  if (n <? 0)%Z then raise ValueError else ret (repeat v (Z.to_nat n)).

(** [np.arange(n)] *)
Definition arange (n : Z) : list R := map INR (seq 0 (Z.to_nat n)).

(** [y[-1] = v] on a non-empty array. *)
Fixpoint set_last (y : list R) (v : R) : list R :=
  match y with
  | [] => []
  | [_] => [v]
  | x :: rest => x :: set_last rest v
  end.

(** [np.linspace(start, stop, num)], with the default [endpoint=True]:
    [num] samples [i * step + start], [step = (stop - start) / (num - 1)],
    the last one set to [stop]. *)
Definition linspace (start stop : R) (num : Z) : result (list R) :=
  if (num <? 0)%Z then raise ValueError else
  let div := (num - 1)%Z in
  let delta := stop - start in
  let y := arange num in
  let y := if (div >? 0)%Z
           then let step := delta / IZR div in map (fun i => i * step) y
           else map (fun i => i * delta) y in
  let y := map (fun v => v + start) y in
  ret (if (num >? 1)%Z then set_last y stop else y).

(** [np.dot(a, b)] on two one-dimensional arrays. *)
Fixpoint dot_same (a b : list R) : R :=
  match a, b with
  | x :: a', y :: b' => x * y + dot_same a' b'
  | _, _ => 0
  end.

Definition dot (a b : list R) : result R :=
  if Nat.eqb (length a) (length b) then ret (dot_same a b)
  else raise ValueError.

(** Elementwise binary operation on two one-dimensional arrays: entry by
    entry when the lengths agree, an operand of length 1 is broadcast
    over the other, any other pair of lengths raises [ValueError]. *)
Fixpoint zip_with (f : R -> R -> R) (a b : list R) : list R :=
  match a, b with
  | x :: a', y :: b' => f x y :: zip_with f a' b'
  | _, _ => []
  end.

Definition elementwise (f : R -> R -> R) (a b : list R) : result (list R) :=
  if Nat.eqb (length a) (length b) then ret (zip_with f a b)
  else match a, b with
       | [x], _ => ret (map (fun y => f x y) b)
       | _, [y] => ret (map (fun x => f x y) a)
       | _, _ => raise ValueError
       end.

End np.

(** ** battery_simulation.py *)

Module Battery.

(** The five arrays [simulate_battery_scenario] returns. *)
Record Output : Type := mkOutput {
  time_minutes : list R;
  soc_history_kwh : list R;
  regen_power_profile : list R;
  solar_power_profile : list R;
  net_power_profile : list R
}.

(** Variables the loop updates. *)
Record LoopState : Type := mkLoopState {
  soc_wh : R;
  soc_history_wh : list R;
  net_power_acc : list R
}.

(** Body of [for i in range(steps)]. *)
Definition loop_body (battery_capacity_wh dt_sec : R)
  (regen_profile solar_profile consumption_profile : list R)
  (i : nat) (st : LoopState) : result LoopState :=
  regen_w <- index regen_profile i ;;
  solar_w <- index solar_profile i ;;
  consumption_w <- index consumption_profile i ;;
  let energy_in_wh := (regen_w + solar_w) * (dt_sec / 3600) in
  let energy_out_wh := consumption_w * (dt_sec / 3600) in
  let net_energy_change_wh := energy_in_wh - energy_out_wh in
  let soc := soc_wh st + net_energy_change_wh in
  let soc := py_min (py_max soc 0) battery_capacity_wh in
  ret {| soc_wh := soc;
         soc_history_wh := soc_history_wh st ++ [soc];
         net_power_acc :=
           net_power_acc st ++ [regen_w + solar_w - consumption_w] |}.

(** The sample profile generated when no regen profile is given. *)
Definition sample_regen_profile (total_time_sec : R) (steps : Z)
  : result (list R) :=
  time_array <- np.linspace 0 total_time_sec steps ;;
  ret (map (fun t => 75 * (1 + sin (2 * PI * t / 600))) time_array).

Definition simulate_battery_scenario
  (battery_capacity_kwh initial_soc_percent total_time_sec dt_sec : R)
  (regen_power_profile : option (list R))
  (solar_power_w consumption_power_w : R) : result Output :=
  let battery_capacity_wh := battery_capacity_kwh * 1000 in
  let soc_wh0 := (initial_soc_percent / 100) * battery_capacity_wh in
  q <- py_div total_time_sec dt_sec ;;
  let steps := py_int q in
  regen_profile <-
    match regen_power_profile with
    | None => sample_regen_profile total_time_sec steps
    | Some profile => ret profile
    end ;;
  solar_profile <- np.full steps solar_power_w ;;
  consumption_profile <- np.full steps consumption_power_w ;;
  st <- for_each
          (loop_body battery_capacity_wh dt_sec
             regen_profile solar_profile consumption_profile)
          (range steps)
          {| soc_wh := soc_wh0; soc_history_wh := []; net_power_acc := [] |} ;;
  let soc_kwh := map (fun w => w / 1000) (soc_history_wh st) in
  let minutes := map (fun i => i * dt_sec / 60) (np.arange steps) in
  ret {| time_minutes := minutes;
         soc_history_kwh := soc_kwh;
         regen_power_profile := regen_profile;
         solar_power_profile := solar_profile;
         net_power_profile := net_power_acc st |}.

(** Default arguments of [simulate_battery_scenario]. *)
Definition default_battery_capacity_kwh : R := 8.
Definition default_initial_soc_percent : R := 100.
Definition default_total_time_sec : R := 3600.
Definition default_dt_sec : R := 1.
Definition default_solar_power_w : R := 50.
Definition default_consumption_power_w : R := 500.

End Battery.

(** ** BLDC_motor_simulation.py *)

Module BLDC.

Definition rotor_inertia : R := 0.004.
Definition num_poles : R := 12.
Definition resistance : R := 0.08.
Definition inductance : R := 0.0003.
Definition emf_constant : R := 0.12.
Definition load_torque : R := 0.03.

(** [np.array([0, -2*np.pi/3, 2*np.pi/3])] *)
Definition phase_offsets : list R := [0; (-2) * PI / 3; 2 * PI / 3].

Definition back_emf (speed : R) : result (list R) :=
  v <- np.linspace 0 1 3 ;;
  let theta := map (fun x => speed * x * num_poles) v in
  angle <- np.elementwise Rplus theta phase_offsets ;;
  ret (map (fun a => emf_constant * sin a) angle).

Definition bldc_gen_model (t : R) (y : list R) : result (list R) :=
  speed <- index y 0 ;;
  let currents := tl y in
  emf <- back_emf speed ;;
  torque <- np.dot currents emf ;;
  let d_speed_dt := (torque - load_torque) / rotor_inertia in
  drop <- np.elementwise Rminus emf (map (fun c => resistance * c) currents) ;;
  let d_currents_dt := map (fun v => v / inductance) drop in
  ret ([d_speed_dt] ++ d_currents_dt).

(** [rectify_dc] on one sample of the three phase currents;
    [np.maximum(x, 0)] is the larger of [x] and [0]. *)
Definition rectify_dc (ia ib ic : R) : R :=
  (Rmax ia 0 + Rmax ib 0 + Rmax ic 0) / 3.

(** [rectify_dc] on the three sampled current sequences, as the script
    calls it: every operation is elementwise. *)
Definition rectify_dc_array (ia ib ic : list R) : result (list R) :=
  let pos := map (fun x => Rmax x 0) in
  ab <- np.elementwise Rplus (pos ia) (pos ib) ;;
  abc <- np.elementwise Rplus ab (pos ic) ;;
  ret (map (fun v => v / 3) abc).

End BLDC.

(** ** Vocabulary of the specification *)

(** [clamp x lo hi]: [x] limited to the interval from [lo] to [hi]. *)
Definition clamp (x lo hi : R) : R :=
  if Rlt_dec x lo then lo else if Rlt_dec hi x then hi else x.

(** Arithmetic mean of a sequence. *)
Definition mean (l : list R) : R := fold_right Rplus 0 l / INR (length l).

(** A valid battery configuration with [N] steps: positive capacity, an
    initial charge between 0 and 100 percent, a positive time step that
    divides the duration into [N >= 1] steps, and, when a regen profile
    is supplied, at least [N] entries in it. *)
Definition valid_config
  (battery_capacity_kwh initial_soc_percent total_time_sec dt_sec : R)
  (regen_power_profile : option (list R)) (N : nat) : Prop :=
  0 < battery_capacity_kwh /\
  0 <= initial_soc_percent <= 100 /\
  0 < dt_sec /\
  (0 < N)%nat /\
  total_time_sec / dt_sec = INR N /\
  match regen_power_profile with
  | None => True
  | Some profile => (N <= length profile)%nat
  end.

(** The outputs of a battery run other than the SOC history. *)
Definition power_outputs (o : Battery.Output)
  : list R * list R * list R * list R :=
  (Battery.time_minutes o, Battery.regen_power_profile o,
   Battery.solar_power_profile o, Battery.net_power_profile o).

Definition on_success {A B : Type} (f : A -> B) (c : result A) : result B :=
  match c with
  | inl e => inl e
  | inr a => inr (f a)
  end.

(** ** Auxiliary definitions *)

(** SOC after one step, and the SOC values a run of steps records. *)
Definition next_soc (battery_capacity_wh dt_sec solar_w consumption_w : R)
  (soc regen_w : R) : R :=
  py_min
    (py_max (soc + ((regen_w + solar_w) * (dt_sec / 3600)
                    - consumption_w * (dt_sec / 3600))) 0)
    battery_capacity_wh.

Fixpoint soc_trace (battery_capacity_wh dt_sec solar_w consumption_w : R)
  (soc : R) (regen : list R) : list R :=
  match regen with
  | [] => []
  | regen_w :: rest =>
      let soc' :=
        next_soc battery_capacity_wh dt_sec solar_w consumption_w soc regen_w in
      soc' :: soc_trace battery_capacity_wh dt_sec solar_w consumption_w soc' rest
  end.

(** The regen profile a run uses: the supplied one, or the generated
    sample profile. *)
Definition resolve_regen (regen_power_profile : option (list R))
  (total_time_sec : R) (steps : Z) : result (list R) :=
  match regen_power_profile with
  | None => Battery.sample_regen_profile total_time_sec steps
  | Some profile => ret profile
  end.

(** ** The battery script's summary *)

(** [np.sum(a)] *)
Definition np_sum (a : list R) : R := fold_right Rplus 0 a.

(** [a[-1]] *)
Definition index_last (a : list R) : result R :=
  match a with
  | [] => raise IndexError
  | _ :: _ => ret (last a 0)
  end.

Module BatteryScript.

(** The figures the script prints after a run. *)
Record Summary : Type := mkSummary {
  total_regen_energy_wh : R;
  total_solar_energy_wh : R;
  total_consumed_energy_wh : R;
  final_soc_kwh : R;
  final_soc_percent : R
}.

(** The script after its parameter block: one run without a regen
    profile, then the summary calculations; the script's literals are the
    arguments. *)
Definition report
  (battery_capacity initial_soc simulation_duration_sec dt
   solar_input_watts bike_consumption_watts : R) : result Summary :=
  out <- Battery.simulate_battery_scenario battery_capacity initial_soc
           simulation_duration_sec dt None
           solar_input_watts bike_consumption_watts ;;
  let regen_pwr := Battery.regen_power_profile out in
  let solar_pwr := Battery.solar_power_profile out in
  let soc_kwh := Battery.soc_history_kwh out in
  let total_regen := np_sum regen_pwr * (dt / 3600) in
  let total_solar := np_sum solar_pwr * (dt / 3600) in
  let total_consumed := bike_consumption_watts * (simulation_duration_sec / 3600) in
  final <- index_last soc_kwh ;;
  ret {| total_regen_energy_wh := total_regen;
         total_solar_energy_wh := total_solar;
         total_consumed_energy_wh := total_consumed;
         final_soc_kwh := final;
         final_soc_percent := final / battery_capacity * 100 |}.


End BatteryScript.

(** * The battery simulation in binary64

    The same function over Python's own numbers: every argument is a
    float (IEEE binary64) and every operation rounds as the interpreter's
    does (an integer argument small enough to convert exactly behaves
    as the float it converts to).  It decides the properties on which
    rounding bears: how many steps a run has, which exception it raises,
    and where the recorded values lie.  [np.sin] is a parameter: the
    library states no rounding for it. *)

Module B64.

Inductive PyError : Set :=
| ZeroDivisionError
| ValueError
| IndexError
| OverflowError.

Definition result (A : Type) : Type := (PyError + A)%type.

Definition ret {A : Type} (a : A) : result A := inr a.
Definition raise {A : Type} (e : PyError) : result A := inl e.

Definition bind {A B : Type} (c : result A) (k : A -> result B) : result B :=
  match c with
  | inl e => inl e
  | inr a => k a
  end.

Notation "x <~ c ;; k" := (bind c (fun x => k))
  (at level 61, c at next level, right associativity).

(** [a / b] on two floats: a zero divisor of either sign raises. *)
Definition py_div (a b : float) : result float :=
  if PrimFloat.eqb b 0 then raise ZeroDivisionError else ret (a / b)%float.

(** [int(x)]: the integer part of a finite float, exactly; an infinity
    raises [OverflowError] and a NaN [ValueError]. *)
Definition py_int (x : float) : result Z :=
  match Prim2SF x with
  | S754_nan => raise ValueError
  | S754_infinity _ => raise OverflowError
  | S754_zero _ => ret 0%Z
  | S754_finite s m e =>
      let v := if (0 <=? e)%Z then (Z.pos m * 2 ^ e)%Z
               else (Z.pos m / 2 ^ (- e))%Z in
      ret (if s then (- v)%Z else v)
  end.

(** The builtins [max(a, b)] and [min(a, b)]: the second argument
    replaces the first only when the comparison [b > a] (respectively
    [b < a]) is true, which it never is on a NaN. *)
Definition py_max (a b : float) : float := if PrimFloat.ltb a b then b else a.
Definition py_min (a b : float) : float := if PrimFloat.ltb b a then b else a.

(** An index of an array as a float, as numpy converts an [int64]:
    exact below [2^53], rounded to nearest up to [2^63], beyond which no
    array has an index. *)
Definition of_index (i : nat) : float :=
  PrimFloat.of_uint63 (Uint63.of_Z (Z.of_nat i)).

(** [float(n)] for a non-negative [n] below [2^63]. *)
Definition of_int (n : Z) : float := PrimFloat.of_uint63 (Uint63.of_Z n).

Definition index (l : list float) (i : nat) : result float :=
  match nth_error l i with
  | Some x => ret x
  | None => raise IndexError
  end.

Definition range (n : Z) : list nat := seq 0 (Z.to_nat n).

Fixpoint for_each {S : Type} (body : nat -> S -> result S)
  (idxs : list nat) (s : S) : result S :=
  match idxs with
  | [] => ret s
  | i :: rest => s' <~ body i s ;; for_each body rest s'
  end.

(** [np.full(n, v)] *)
Definition np_full (n : Z) (v : float) : result (list float) :=
  if (n <? 0)%Z then raise ValueError else ret (repeat v (Z.to_nat n)).

(** [np.arange(n)], converted to floats where it is used. *)
Definition np_arange (n : Z) : list float := map of_index (seq 0 (Z.to_nat n)).

Fixpoint set_last (y : list float) (v : float) : list float :=
  match y with
  | [] => []
  | [_] => [v]
  | x :: rest => x :: set_last rest v
  end.

(** [np.linspace(start, stop, num)] as numpy computes it: the indices
    times [step = (stop - start) / (num - 1)] (divided by [num - 1] and
    multiplied by the difference instead when the step underflows to 0),
    plus [start], and the last sample overwritten with [stop]. *)
Definition np_linspace (start stop : float) (num : Z) : result (list float) :=
  if (num <? 0)%Z then raise ValueError else
  let div := (num - 1)%Z in
  let delta := (stop - start)%float in
  let y := np_arange num in
  let y := if (div >? 0)%Z
           then let step := (delta / of_int div)%float in
                if PrimFloat.eqb step 0
                then map (fun v => (v / of_int div * delta)%float) y
                else map (fun v => (v * step)%float) y
           else map (fun v => (v * delta)%float) y in
  let y := map (fun v => (v + start)%float) y in
  ret (if (num >? 1)%Z then set_last y stop else y).

(** [np.pi] *)
Definition np_pi : float := 0x1.921fb54442d18p+1%float.

Record Output : Type := mkOutput {
  time_minutes : list float;
  soc_history_kwh : list float;
  regen_power_profile : list float;
  solar_power_profile : list float;
  net_power_profile : list float
}.

Record LoopState : Type := mkLoopState {
  soc_wh : float;
  soc_history_wh : list float;
  net_power_acc : list float
}.

Definition loop_body (battery_capacity_wh dt_sec : float)
  (regen_profile solar_profile consumption_profile : list float)
  (i : nat) (st : LoopState) : result LoopState :=
  regen_w <~ index regen_profile i ;;
  solar_w <~ index solar_profile i ;;
  consumption_w <~ index consumption_profile i ;;
  let energy_in_wh := ((regen_w + solar_w) * (dt_sec / 3600))%float in
  let energy_out_wh := (consumption_w * (dt_sec / 3600))%float in
  let net_energy_change_wh := (energy_in_wh - energy_out_wh)%float in
  let soc := (soc_wh st + net_energy_change_wh)%float in
  let soc := py_min (py_max soc 0) battery_capacity_wh in
  ret {| soc_wh := soc;
         soc_history_wh := soc_history_wh st ++ [soc];
         net_power_acc :=
           net_power_acc st
           ++ [(regen_w + solar_w - consumption_w)%float] |}.

Section WithSin.

Variable np_sin : float -> float.

Definition sample_regen_profile (total_time_sec : float) (steps : Z)
  : result (list float) :=
  time_array <~ np_linspace 0 total_time_sec steps ;;
  ret (map (fun t => (75 * (1 + np_sin (2 * np_pi * t / 600)))%float)
         time_array).

Definition simulate_battery_scenario
  (battery_capacity_kwh initial_soc_percent total_time_sec dt_sec : float)
  (regen_power_profile : option (list float))
  (solar_power_w consumption_power_w : float) : result Output :=
  let battery_capacity_wh := (battery_capacity_kwh * 1000)%float in
  let soc_wh0 := (initial_soc_percent / 100 * battery_capacity_wh)%float in
  q <~ py_div total_time_sec dt_sec ;;
  steps <~ py_int q ;;
  regen_profile <~
    match regen_power_profile with
    | None => sample_regen_profile total_time_sec steps
    | Some profile => ret profile
    end ;;
  solar_profile <~ np_full steps solar_power_w ;;
  consumption_profile <~ np_full steps consumption_power_w ;;
  st <~ for_each
          (loop_body battery_capacity_wh dt_sec
             regen_profile solar_profile consumption_profile)
          (range steps)
          {| soc_wh := soc_wh0; soc_history_wh := []; net_power_acc := [] |} ;;
  let soc_kwh := map (fun w => (w / 1000)%float) (soc_history_wh st) in
  let minutes := map (fun i => (i * dt_sec / 60)%float) (np_arange steps) in
  ret {| time_minutes := minutes;
         soc_history_kwh := soc_kwh;
         regen_power_profile := regen_profile;
         solar_power_profile := solar_profile;
         net_power_profile := net_power_acc st |}.

End WithSin.

(** The Wh values a run of steps records. *)
Definition next_soc (battery_capacity_wh dt_sec solar_w consumption_w : float)
  (soc regen_w : float) : float :=
  py_min
    (py_max (soc + ((regen_w + solar_w) * (dt_sec / 3600)
                    - consumption_w * (dt_sec / 3600)))%float 0)
    battery_capacity_wh.

Fixpoint soc_trace (battery_capacity_wh dt_sec solar_w consumption_w : float)
  (soc : float) (regen : list float) : list float :=
  match regen with
  | [] => []
  | regen_w :: rest =>
      let soc' :=
        next_soc battery_capacity_wh dt_sec solar_w consumption_w soc regen_w in
      soc' :: soc_trace battery_capacity_wh dt_sec solar_w consumption_w soc' rest
  end.

End B64.

(** * Properties *)

(** ** Python helpers *)

Lemma py_int_INR (n : nat) : py_int (INR n) = Z.of_nat n.
Proof.
  unfold py_int. destruct (Rle_dec 0 (INR n)) as [_ | H].
  - apply Int_part_INR.
  - exfalso. apply H, pos_INR.
Qed.

Lemma py_max_Rmax (a b : R) : py_max a b = Rmax a b.
Proof.
  unfold py_max, Rmax.
  destruct (Rlt_dec a b), (Rle_dec a b); try reflexivity; lra.
Qed.

Lemma py_min_Rmin (a b : R) : py_min a b = Rmin a b.
Proof.
  unfold py_min, Rmin.
  destruct (Rlt_dec b a), (Rle_dec a b); try reflexivity; lra.
Qed.

Lemma py_clamp_bounds (x cap : R) :
  0 <= cap -> 0 <= py_min (py_max x 0) cap <= cap.
Proof.
  intros Hcap. unfold py_min, py_max.
  destruct (Rlt_dec x 0); destruct (Rlt_dec cap _); lra.
Qed.

Lemma py_clamp_is_clamp (x cap : R) :
  0 <= cap -> py_min (py_max x 0) cap = clamp x 0 cap.
Proof.
  intros Hcap. unfold py_min, py_max, clamp.
  destruct (Rlt_dec x 0); destruct (Rlt_dec cap _); try lra;
    destruct (Rlt_dec cap x); lra.
Qed.

Lemma index_nth (l : list R) (i : nat) (d : R) :
  (i < length l)%nat -> index l i = inr (nth i l d).
Proof.
  intros Hi. unfold index.
  rewrite (nth_error_nth' l d Hi). reflexivity.
Qed.

Lemma index_repeat (v : R) (n i : nat) :
  (i < n)%nat -> index (repeat v n) i = inr v.
Proof.
  intros Hi. rewrite (index_nth _ _ v) by (rewrite repeat_length; exact Hi).
  rewrite nth_repeat. reflexivity.
Qed.

Lemma full_of_nat (n : nat) (v : R) : np.full (Z.of_nat n) v = inr (repeat v n).
Proof.
  unfold np.full. destruct (Z.ltb_spec (Z.of_nat n) 0); [lia |].
  rewrite Nat2Z.id. reflexivity.
Qed.

Lemma full_negative (n : Z) (v : R) : (n < 0)%Z -> np.full n v = inl ValueError.
Proof.
  intros Hn. unfold np.full. destruct (Z.ltb_spec n 0); [reflexivity | lia].
Qed.

(** ** The recorded SOC values *)

Section Trace.

Variables cap_wh dt_sec solar_w consumption_w : R.

Local Notation "'next'" := (next_soc cap_wh dt_sec solar_w consumption_w).
Local Notation "'trace'" := (soc_trace cap_wh dt_sec solar_w consumption_w).

Lemma soc_trace_length (regen : list R) (soc : R) :
  length (trace soc regen) = length regen.
Proof.
  revert soc. induction regen as [| r rest IH]; intros soc; simpl.
  - reflexivity.
  - f_equal. apply IH.
Qed.

Lemma soc_trace_bounds (regen : list R) (soc : R) :
  0 <= cap_wh -> Forall (fun s => 0 <= s <= cap_wh) (trace soc regen).
Proof.
  intros Hcap. revert soc.
  induction regen as [| r rest IH]; intros soc; simpl; constructor.
  - unfold next_soc. apply py_clamp_bounds, Hcap.
  - apply IH.
Qed.

Lemma soc_trace_nth (regen : list R) (soc : R) (i : nat) (d : R) :
  (i < length regen)%nat ->
  nth i (trace soc regen) d =
  next match i with
       | O => soc
       | S j => nth j (trace soc regen) d
       end (nth i regen d).
Proof.
  revert soc i. induction regen as [| r rest IH]; intros soc i Hi; simpl in Hi.
  - lia.
  - destruct i as [| i]; simpl.
    + reflexivity.
    + rewrite IH by lia. destruct i; reflexivity.
Qed.

(** A constant net energy per step that never reaches a bound adds up. *)
Lemma soc_trace_linear (regen_w soc : R) (n : nat) :
  let delta := (regen_w + solar_w) * (dt_sec / 3600)
               - consumption_w * (dt_sec / 3600) in
  (forall k, (1 <= k <= n)%nat -> 0 <= soc + INR k * delta <= cap_wh) ->
  trace soc (repeat regen_w n) =
  map (fun k => soc + INR (S k) * delta) (seq 0 n).
Proof.
  intros delta. revert soc. induction n as [| n IH]; intros soc Hin.
  - reflexivity.
  - cbn [repeat soc_trace seq map].
    assert (H1 : next soc regen_w = soc + delta).
    { specialize (Hin 1%nat ltac:(lia)). simpl in Hin. fold delta in Hin.
      unfold next_soc. fold delta. unfold py_min, py_max.
      destruct (Rlt_dec (soc + delta) 0); [lra |].
      destruct (Rlt_dec cap_wh (soc + delta)); lra. }
    rewrite H1. f_equal.
    + simpl. lra.
    + rewrite IH.
      * rewrite <- seq_shift, map_map. apply map_ext. intros k.
        rewrite !S_INR. lra.
      * intros k Hk. specialize (Hin (S k) ltac:(lia)).
        rewrite S_INR in Hin. lra.
Qed.

End Trace.

(** ** The simulation loop *)

Lemma skipn_cons_nth (l : list R) (a : nat) :
  (a < length l)%nat ->
  exists r, nth_error l a = Some r /\ skipn a l = r :: skipn (S a) l.
Proof.
  revert a. induction l as [| x l IH]; intros a Ha; simpl in Ha.
  - lia.
  - destruct a as [| a].
    + exists x. split; reflexivity.
    + destruct (IH a ltac:(lia)) as [r [H1 H2]].
      exists r. split; [exact H1 | exact H2].
Qed.

Lemma loop_run (cap_wh dt_sec solar_w consumption_w : R)
  (regen : list R) (m n : nat) :
  forall (a : nat) (st : Battery.LoopState),
  (a + n <= length regen)%nat ->
  (a + n <= m)%nat ->
  exists st',
    for_each
      (Battery.loop_body cap_wh dt_sec regen
         (repeat solar_w m) (repeat consumption_w m))
      (seq a n) st = inr st' /\
    Battery.soc_history_wh st' =
      Battery.soc_history_wh st ++
      soc_trace cap_wh dt_sec solar_w consumption_w (Battery.soc_wh st)
        (firstn n (skipn a regen)) /\
    Battery.net_power_acc st' =
      Battery.net_power_acc st ++
      map (fun r => r + solar_w - consumption_w) (firstn n (skipn a regen)).
Proof.
  induction n as [| n IH]; intros a st Hlen Hm.
  - exists st. simpl. rewrite !app_nil_r. repeat split.
  - destruct (skipn_cons_nth regen a ltac:(lia)) as [r [Hr Hskip]].
    cbn [seq for_each]. unfold Battery.loop_body at 1. unfold index at 1.
    rewrite Hr. cbn [bind ret].
    rewrite !index_repeat by lia. cbn [bind ret].
    match goal with
    | |- context [for_each _ _ ?s] => destruct (IH (S a) s) as [st' [H1 [H2 H3]]]
    end; try lia.
    exists st'. split; [exact H1 |].
    rewrite H2, H3, Hskip. cbn [firstn soc_trace map Battery.soc_wh
      Battery.soc_history_wh Battery.net_power_acc].
    rewrite <- !app_assoc. split; reflexivity.
Qed.

(** What a run with [N] steps returns. *)
Lemma simulate_run
  (cap init total dt : R) (regen_opt : option (list R)) (solar cons : R)
  (N : nat) (regen : list R) :
  dt <> 0 ->
  py_int (total / dt) = Z.of_nat N ->
  resolve_regen regen_opt total (Z.of_nat N) = inr regen ->
  (N <= length regen)%nat ->
  Battery.simulate_battery_scenario cap init total dt regen_opt solar cons =
  inr {| Battery.time_minutes :=
           map (fun i => i * dt / 60) (map INR (seq 0 N));
         Battery.soc_history_kwh :=
           map (fun w => w / 1000)
             (soc_trace (cap * 1000) dt solar cons
                (init / 100 * (cap * 1000)) (firstn N regen));
         Battery.regen_power_profile := regen;
         Battery.solar_power_profile := repeat solar N;
         Battery.net_power_profile :=
           map (fun r => r + solar - cons) (firstn N regen) |}.
Proof.
  intros Hdt Hsteps Hregen Hlen.
  unfold Battery.simulate_battery_scenario, py_div.
  destruct (Req_dec_T dt 0) as [Heq | _]; [contradiction |].
  cbn [bind ret]. rewrite Hsteps.
  change (match regen_opt with
          | Some profile => ret profile
          | None => Battery.sample_regen_profile total (Z.of_nat N)
          end) with (resolve_regen regen_opt total (Z.of_nat N)).
  rewrite Hregen. cbn [bind].
  rewrite !full_of_nat. cbn [bind].
  unfold range, np.arange. rewrite Nat2Z.id.
  destruct (loop_run (cap * 1000) dt solar cons regen N N 0
              {| Battery.soc_wh := init / 100 * (cap * 1000);
                 Battery.soc_history_wh := [];
                 Battery.net_power_acc := [] |})
    as [st' [H1 [H2 H3]]]; try lia.
  rewrite H1. cbn [bind ret]. rewrite H2, H3. reflexivity.
Qed.

(** ** [np.linspace] *)

Lemma set_last_length (y : list R) (v : R) :
  length (np.set_last y v) = length y.
Proof.
  induction y as [| x [| x' rest] IH]; try reflexivity.
  change (np.set_last (x :: x' :: rest) v) with (x :: np.set_last (x' :: rest) v).
  cbn [length] in *. f_equal. exact IH.
Qed.

Lemma set_last_nth (y : list R) (v d : R) (i : nat) :
  (i < length y)%nat ->
  nth i (np.set_last y v) d = if Nat.eqb (S i) (length y) then v else nth i y d.
Proof.
  revert i. induction y as [| x [| x' rest] IH]; intros i Hi.
  - simpl in Hi. lia.
  - simpl in Hi. assert (i = 0%nat) by lia. subst i. reflexivity.
  - change (np.set_last (x :: x' :: rest) v)
      with (x :: np.set_last (x' :: rest) v).
    destruct i as [| i].
    + reflexivity.
    + cbn [nth]. rewrite IH by (cbn [length] in *; lia).
      reflexivity.
Qed.

Lemma linspace_of_nat (start stop : R) (n : nat) :
  exists l, np.linspace start stop (Z.of_nat n) = inr l /\ length l = n.
Proof.
  unfold np.linspace.
  destruct (Z.ltb_spec (Z.of_nat n) 0) as [H | _]; [lia |].
  eexists. split; [reflexivity |].
  assert (Hlen : forall f g : R -> R,
             length (map g (map f (np.arange (Z.of_nat n)))) = n).
  { intros f g. unfold np.arange.
    rewrite !length_map, length_seq. apply Nat2Z.id. }
  destruct (Z.of_nat n >? 1)%Z; [rewrite set_last_length |];
    destruct (Z.of_nat n - 1 >? 0)%Z; apply Hlen.
Qed.

(** Inner samples of [np.linspace]: [i * step + start]. *)
Lemma linspace_nth_inner (start stop : R) (n i : nat) (l : list R) (d : R) :
  np.linspace start stop (Z.of_nat n) = inr l ->
  (S i < n)%nat ->
  nth i l d = INR i * ((stop - start) / IZR (Z.of_nat n - 1)) + start.
Proof.
  unfold np.linspace.
  destruct (Z.ltb_spec (Z.of_nat n) 0) as [H | _]; [lia |].
  intros Hl Hi. injection Hl as <-.
  destruct (Z.gtb_spec (Z.of_nat n) 1) as [_ | H]; [| lia].
  destruct (Z.gtb_spec (Z.of_nat n - 1) 0) as [_ | H]; [| lia].
  assert (Hlen : length (np.arange (Z.of_nat n)) = n).
  { unfold np.arange. rewrite length_map, length_seq. apply Nat2Z.id. }
  rewrite set_last_nth by (rewrite !length_map, Hlen; lia).
  rewrite !length_map, Hlen.
  destruct (Nat.eqb_spec (S i) n) as [H | _]; [lia |].
  rewrite (nth_indep _ d (0 * ((stop - start) / IZR (Z.of_nat n - 1)) + start))
    by (rewrite !length_map, Hlen; lia).
  rewrite (map_nth (fun v => v + start)).
  rewrite (map_nth (fun i0 => i0 * ((stop - start) / IZR (Z.of_nat n - 1)))).
  unfold np.arange. rewrite Nat2Z.id.
  change 0 with (INR 0). rewrite map_nth, seq_nth by lia.
  reflexivity.
Qed.

(** With two samples or more, the last one is [stop] itself. *)
Lemma linspace_nth_last (start stop : R) (n : nat) (l : list R) (d : R) :
  np.linspace start stop (Z.of_nat n) = inr l ->
  (2 <= n)%nat ->
  nth (n - 1) l d = stop.
Proof.
  unfold np.linspace.
  destruct (Z.ltb_spec (Z.of_nat n) 0) as [H | _]; [lia |].
  intros Hl Hn. injection Hl as <-.
  destruct (Z.gtb_spec (Z.of_nat n) 1) as [_ | H]; [| lia].
  assert (Hlen : length (np.arange (Z.of_nat n)) = n).
  { unfold np.arange. rewrite length_map, length_seq. apply Nat2Z.id. }
  destruct (Z.of_nat n - 1 >? 0)%Z;
    rewrite set_last_nth by (rewrite !length_map, Hlen; lia);
    rewrite !length_map, Hlen;
    (destruct (Nat.eqb_spec (S (n - 1)) n) as [_ | H]; [reflexivity | lia]).
Qed.

Lemma sample_regen_profile_of_nat (total : R) (n : nat) :
  exists l, Battery.sample_regen_profile total (Z.of_nat n) = inr l /\
            length l = n.
Proof.
  unfold Battery.sample_regen_profile.
  destruct (linspace_of_nat 0 total n) as [l [Hl Hlen]].
  rewrite Hl. cbn [bind ret]. eexists. split; [reflexivity |].
  rewrite length_map. exact Hlen.
Qed.

(** ** Valid configurations run to completion *)

Lemma valid_config_run
  (cap init total dt : R) (regen_opt : option (list R)) (N : nat) :
  valid_config cap init total dt regen_opt N ->
  dt <> 0 /\ py_int (total / dt) = Z.of_nat N /\
  exists regen, resolve_regen regen_opt total (Z.of_nat N) = inr regen /\
                (N <= length regen)%nat.
Proof.
  intros (Hcap & Hinit & Hdt & HN & Hq & Hregen).
  split; [lra |]. split; [rewrite Hq; apply py_int_INR |].
  destruct regen_opt as [p |]; simpl.
  - exists p. split; [reflexivity | exact Hregen].
  - destruct (sample_regen_profile_of_nat total N) as [l [Hl Hlen]].
    exists l. split; [exact Hl | lia].
Qed.

Lemma nth_map_firstn (f : R -> R) (l : list R) (N i : nat) (d : R) :
  (i < N)%nat -> (N <= length l)%nat ->
  nth i (map f (firstn N l)) d = f (nth i l d).
Proof.
  intros Hi HN.
  rewrite (nth_indep _ d (f d))
    by (rewrite length_map, firstn_length_le; assumption).
  rewrite map_nth, nth_firstn.
  destruct (Nat.ltb_spec i N); [reflexivity | lia].
Qed.

(** ** Battery simulation: claims *)

(** With exact arithmetic, for every valid configuration, the run returns
    and every element of [soc_history_kwh] lies between 0 and
    [battery_capacity_kwh].  In binary64 the upper bound can fail by
    rounding; see the binary64 properties below. *)
Theorem soc_history_within_capacity
  (cap init total dt : R) (regen_opt : option (list R)) (solar cons : R)
  (N : nat) :
  valid_config cap init total dt regen_opt N ->
  exists out,
    Battery.simulate_battery_scenario cap init total dt regen_opt solar cons
      = inr out /\
    length (Battery.soc_history_kwh out) = N /\
    Forall (fun s => 0 <= s <= cap) (Battery.soc_history_kwh out).
Proof.
  intros Hvalid.
  destruct (valid_config_run _ _ _ _ _ _ Hvalid)
    as (Hdt & Hsteps & regen & Hregen & Hlen).
  destruct Hvalid as (Hcap & _).
  eexists. split.
  { apply (simulate_run cap init total dt regen_opt solar cons N regen);
      assumption. }
  cbn [Battery.soc_history_kwh]. split.
  - rewrite length_map, soc_trace_length. apply firstn_length_le, Hlen.
  - apply Forall_map.
    eapply Forall_impl; [| apply soc_trace_bounds; lra].
    cbv beta. intros s Hs. lra.
Qed.

Lemma soc_history_within_capacity_witness :
  valid_config 8 100 3 1 (Some [0; 0; 0]) 3 /\
  exists out,
    Battery.simulate_battery_scenario 8 100 3 1 (Some [0; 0; 0]) 75 450
      = inr out /\
    length (Battery.soc_history_kwh out) = 3%nat /\
    Forall (fun s => 0 <= s <= 8) (Battery.soc_history_kwh out).
Proof.
  assert (Hvalid : valid_config 8 100 3 1 (Some [0; 0; 0]) 3).
  { unfold valid_config. simpl. repeat split; try lra; lia. }
  split; [exact Hvalid |].
  apply (soc_history_within_capacity 8 100 3 1 (Some [0; 0; 0]) 75 450 3 Hvalid).
Defined.

(** C2: for every valid configuration the run starts from
    [(initial_soc_percent / 100) * battery_capacity_kwh * 1000] Wh and the
    SOC recorded at step [i], in kWh, is the value
    [clamp (previous + (regen[i] + solar[i]) * (dt / 3600)
            - consumption * (dt / 3600)) 0 (capacity * 1000)]
    divided by 1000, where [previous] is the clamped Wh value of the step
    before (the initial SOC for the first step), [regen] is the supplied
    profile (the generated one when none is supplied) and [solar[i]] is
    [solar_power_w] at each of the [N] steps. *)
Theorem soc_history_recurrence
  (cap init total dt : R) (regen_opt : option (list R)) (solar cons : R)
  (N : nat) :
  valid_config cap init total dt regen_opt N ->
  exists out,
    Battery.simulate_battery_scenario cap init total dt regen_opt solar cons
      = inr out /\
    match regen_opt with
    | Some profile => Battery.regen_power_profile out = profile
    | None => Battery.sample_regen_profile total (Z.of_nat N)
              = inr (Battery.regen_power_profile out)
    end /\
    Battery.solar_power_profile out = repeat solar N /\
    length (Battery.soc_history_kwh out) = N /\
    forall i, (i < N)%nat ->
      let previous_wh :=
        match i with
        | O => init / 100 * cap * 1000
        | S j => nth j (Battery.soc_history_kwh out) 0 * 1000
        end in
      nth i (Battery.soc_history_kwh out) 0 =
      clamp (previous_wh
             + (nth i (Battery.regen_power_profile out) 0
                + nth i (Battery.solar_power_profile out) 0) * (dt / 3600)
             - cons * (dt / 3600))
        0 (cap * 1000) / 1000.
Proof.
  intros Hvalid.
  destruct (valid_config_run _ _ _ _ _ _ Hvalid)
    as (Hdt & Hsteps & regen & Hregen & Hlen).
  destruct Hvalid as (Hcap & _).
  eexists. split.
  { apply (simulate_run cap init total dt regen_opt solar cons N regen);
      assumption. }
  cbn [Battery.soc_history_kwh Battery.regen_power_profile
       Battery.solar_power_profile].
  assert (Hflen : length (firstn N regen) = N)
    by (apply firstn_length_le, Hlen).
  split; [| split; [reflexivity | split]].
  - destruct regen_opt as [profile |]; [| exact Hregen].
    injection Hregen as ->. reflexivity.
  - rewrite length_map, soc_trace_length. exact Hflen.
  - intros i Hi.
    set (tr := soc_trace (cap * 1000) dt solar cons
                 (init / 100 * (cap * 1000)) (firstn N regen)).
    assert (Htr : forall k, (k < N)%nat ->
              nth k (map (fun w => w / 1000) tr) 0 = nth k tr 0 / 1000).
    { intros k Hk.
      rewrite (nth_indep _ 0 (0 / 1000))
        by (rewrite length_map; unfold tr; rewrite soc_trace_length; lia).
      apply (map_nth (fun w => w / 1000)). }
    rewrite Htr by exact Hi. f_equal.
    unfold tr at 1. rewrite soc_trace_nth by lia.
    unfold next_soc. rewrite py_clamp_is_clamp by lra.
    rewrite nth_repeat_lt by exact Hi.
    rewrite nth_firstn.
    destruct (Nat.ltb_spec i N) as [_ | H]; [| lia].
    f_equal.
    fold tr. destruct i as [| j]; [lra |].
    rewrite Htr by lia. lra.
Qed.

Lemma soc_history_recurrence_witness :
  valid_config 8 100 3 1 (Some [0; 0; 0]) 3 /\
  exists out,
    Battery.simulate_battery_scenario 8 100 3 1 (Some [0; 0; 0]) 75 450
      = inr out /\
    Battery.regen_power_profile out = [0; 0; 0] /\
    Battery.solar_power_profile out = repeat 75 3 /\
    length (Battery.soc_history_kwh out) = 3%nat /\
    forall i, (i < 3)%nat ->
      let previous_wh :=
        match i with
        | O => 100 / 100 * 8 * 1000
        | S j => nth j (Battery.soc_history_kwh out) 0 * 1000
        end in
      nth i (Battery.soc_history_kwh out) 0 =
      clamp (previous_wh
             + (nth i (Battery.regen_power_profile out) 0
                + nth i (Battery.solar_power_profile out) 0) * (1 / 3600)
             - 450 * (1 / 3600))
        0 (8 * 1000) / 1000.
Proof.
  assert (Hvalid : valid_config 8 100 3 1 (Some [0; 0; 0]) 3).
  { unfold valid_config. simpl. repeat split; try lra; lia. }
  split; [exact Hvalid |].
  apply (soc_history_recurrence 8 100 3 1 (Some [0; 0; 0]) 75 450 3 Hvalid).
Defined.

(** C7: for every valid configuration and every step [i], the recorded
    net power is [regen[i] + solar[i] - consumption], with [regen] the
    supplied profile (the generated one when none is supplied) and
    [solar[i] = solar_power_w]; the SOC and its clamp do not enter it. *)
Theorem net_power_unclamped
  (cap init total dt : R) (regen_opt : option (list R)) (solar cons : R)
  (N : nat) :
  valid_config cap init total dt regen_opt N ->
  exists out,
    Battery.simulate_battery_scenario cap init total dt regen_opt solar cons
      = inr out /\
    match regen_opt with
    | Some profile => Battery.regen_power_profile out = profile
    | None => Battery.sample_regen_profile total (Z.of_nat N)
              = inr (Battery.regen_power_profile out)
    end /\
    Battery.solar_power_profile out = repeat solar N /\
    length (Battery.net_power_profile out) = N /\
    (forall i, (i < N)%nat ->
       nth i (Battery.net_power_profile out) 0 =
       nth i (Battery.regen_power_profile out) 0
       + nth i (Battery.solar_power_profile out) 0 - cons) /\
    (forall i, (i < N)%nat ->
       nth i (Battery.net_power_profile out) 0 =
       nth i (Battery.regen_power_profile out) 0 + solar - cons).
Proof.
  intros Hvalid.
  destruct (valid_config_run _ _ _ _ _ _ Hvalid)
    as (Hdt & Hsteps & regen & Hregen & Hlen).
  eexists. split.
  { apply (simulate_run cap init total dt regen_opt solar cons N regen);
      assumption. }
  cbn [Battery.net_power_profile Battery.regen_power_profile
       Battery.solar_power_profile].
  split; [| split; [reflexivity | split; [| split]]].
  - destruct regen_opt as [profile |]; [| exact Hregen].
    injection Hregen as ->. reflexivity.
  - rewrite length_map. apply firstn_length_le, Hlen.
  - intros i Hi.
    rewrite nth_map_firstn by assumption.
    rewrite nth_repeat_lt by exact Hi. reflexivity.
  - intros i Hi. apply nth_map_firstn; assumption.
Qed.

Lemma net_power_unclamped_witness :
  valid_config 1 100 2 1 (Some [5000; 0]) 2 /\
  exists out,
    Battery.simulate_battery_scenario 1 100 2 1 (Some [5000; 0]) 75 450
      = inr out /\
    Battery.regen_power_profile out = [5000; 0] /\
    Battery.solar_power_profile out = repeat 75 2 /\
    length (Battery.net_power_profile out) = 2%nat /\
    (forall i, (i < 2)%nat ->
       nth i (Battery.net_power_profile out) 0 =
       nth i (Battery.regen_power_profile out) 0
       + nth i (Battery.solar_power_profile out) 0 - 450) /\
    (forall i, (i < 2)%nat ->
       nth i (Battery.net_power_profile out) 0 =
       nth i (Battery.regen_power_profile out) 0 + 75 - 450).
Proof.
  assert (Hvalid : valid_config 1 100 2 1 (Some [5000; 0]) 2).
  { unfold valid_config. simpl. repeat split; try lra; lia. }
  split; [exact Hvalid |].
  apply (net_power_unclamped 1 100 2 1 (Some [5000; 0]) 75 450 2 Hvalid).
Defined.

(** A 1 kWh battery, full at the start, charged with 5000 W in the first
    second: the SOC stays clamped at 1 kWh while the recorded net power
    is the full 4625 W; the second step discharges as usual. *)
Example clamped_run :
  exists out,
    Battery.simulate_battery_scenario 1 100 2 1 (Some [5000; 0]) 75 450
      = inr out /\
    Battery.soc_history_kwh out = [1; (1000 - 375 / 3600) / 1000] /\
    Battery.net_power_profile out = [4625; -375] /\
    Battery.time_minutes out = [0; 1 / 60].
Proof.
  assert (Hsteps : py_int (2 / 1) = Z.of_nat 2).
  { replace (2 / 1) with (INR 2) by (simpl; lra). apply py_int_INR. }
  eexists. split.
  { apply (simulate_run 1 100 2 1 (Some [5000; 0]) 75 450 2 [5000; 0]
             ltac:(lra) Hsteps eq_refl).
    simpl. lia. }
  cbn [Battery.soc_history_kwh Battery.net_power_profile Battery.time_minutes
       firstn soc_trace map seq].
  assert (H0 : next_soc (1 * 1000) 1 75 450 (100 / 100 * (1 * 1000)) 5000
               = 1000).
  { unfold next_soc, py_max. destruct (Rlt_dec _ 0) as [H | _]; [lra |].
    unfold py_min. destruct (Rlt_dec _ _); lra. }
  rewrite H0.
  assert (H1 : next_soc (1 * 1000) 1 75 450 1000 0 = 1000 - 375 / 3600).
  { unfold next_soc, py_max. destruct (Rlt_dec _ 0) as [H | _]; [lra |].
    unfold py_min. destruct (Rlt_dec _ _); lra. }
  rewrite H1.
  split; [f_equal; lra |].
  split; [f_equal; [lra | f_equal; lra] |].
  f_equal; [simpl; lra | f_equal; simpl; lra].
Qed.

(** A zero time step raises at the first division; a regen profile
    shorter than the step count raises when the loop reaches its end. *)
Example zero_step_raises :
  Battery.simulate_battery_scenario 8 100 3600 0 None 50 500
    = inl ZeroDivisionError.
Proof.
  unfold Battery.simulate_battery_scenario, py_div.
  destruct (Req_dec_T 0 0) as [_ | H]; [reflexivity | contradiction].
Qed.

Example short_profile_raises :
  Battery.simulate_battery_scenario 8 100 2 1 (Some [0]) 50 500
    = inl IndexError.
Proof.
  assert (Hsteps : py_int (2 / 1) = Z.of_nat 2).
  { replace (2 / 1) with (INR 2) by (simpl; lra). apply py_int_INR. }
  unfold Battery.simulate_battery_scenario, py_div.
  destruct (Req_dec_T 1 0) as [H | _]; [lra |].
  cbn [bind ret]. rewrite Hsteps, !full_of_nat. cbn [bind].
  unfold range. rewrite Nat2Z.id. reflexivity.
Qed.

Lemma Int_part_IZR (z : Z) : Int_part (IZR z) = z.
Proof. symmetry. apply Int_part_spec. lra. Qed.

Lemma py_int_IZR (z : Z) : py_int (IZR z) = z.
Proof.
  unfold py_int. destruct (Rle_dec 0 (IZR z)) as [_ | _].
  - apply Int_part_IZR.
  - rewrite <- opp_IZR, Int_part_IZR. lia.
Qed.

(** C9 as stated fails for a negative duration: [dt_sec > 0] and the
    profile has at least [N = -5] entries, but [np.full(-5, ...)] raises
    [ValueError] and nothing is returned. *)
Lemma negative_duration_raises :
  0 < 1 /\
  (py_int (-5 / 1) <= Z.of_nat (length (@nil R)))%Z /\
  Battery.simulate_battery_scenario 8 100 (-5) 1 (Some []) 50 500
    = inl ValueError.
Proof.
  assert (H : py_int (-5 / 1) = (-5)%Z).
  { replace (-5 / 1) with (IZR (-5)) by lra. apply py_int_IZR. }
  split; [lra |]. split; [rewrite H; simpl; lia |].
  unfold Battery.simulate_battery_scenario, py_div.
  destruct (Req_dec_T 1 0) as [Heq | _]; [lra |].
  cbn [bind ret]. rewrite H.
  rewrite full_negative by lia. reflexivity.
Qed.

(** ** Independence of the power outputs from the battery *)

Lemma loop_net_independent (cap1 cap2 dt : R) (regen solar cons : list R) :
  forall (idxs : list nat) (st1 st2 : Battery.LoopState),
  Battery.net_power_acc st1 = Battery.net_power_acc st2 ->
  on_success Battery.net_power_acc
    (for_each (Battery.loop_body cap1 dt regen solar cons) idxs st1) =
  on_success Battery.net_power_acc
    (for_each (Battery.loop_body cap2 dt regen solar cons) idxs st2).
Proof.
  induction idxs as [| i rest IH]; intros st1 st2 Hnet.
  - simpl. rewrite Hnet. reflexivity.
  - cbn [for_each]. unfold Battery.loop_body at 1 3.
    destruct (index regen i) as [e | r]; [reflexivity |].
    destruct (index solar i) as [e | s]; [reflexivity |].
    destruct (index cons i) as [e | c]; [reflexivity |].
    cbn [bind ret]. apply IH. cbn [Battery.net_power_acc].
    rewrite Hnet. reflexivity.
Qed.

(** C10: two runs that differ only in [battery_capacity_kwh] and
    [initial_soc_percent] end the same way, and when they return, their
    [time_minutes], [regen_power_profile], [solar_power_profile] and
    [net_power_profile] are identical. *)
Theorem power_outputs_independent_of_battery
  (cap1 init1 cap2 init2 total dt : R) (regen_opt : option (list R))
  (solar cons : R) :
  on_success power_outputs
    (Battery.simulate_battery_scenario cap1 init1 total dt regen_opt
       solar cons) =
  on_success power_outputs
    (Battery.simulate_battery_scenario cap2 init2 total dt regen_opt
       solar cons).
Proof.
  unfold Battery.simulate_battery_scenario.
  destruct (py_div total dt) as [e | q]; [reflexivity |].
  cbn [bind].
  destruct (match regen_opt with
            | Some profile => ret profile
            | None => Battery.sample_regen_profile total (py_int q)
            end) as [e | regen]; [reflexivity |].
  cbn [bind].
  destruct (np.full (py_int q) solar) as [e | solar_p]; [reflexivity |].
  destruct (np.full (py_int q) cons) as [e | cons_p]; [reflexivity |].
  cbn [bind].
  pose proof (loop_net_independent (cap1 * 1000) (cap2 * 1000) dt
                regen solar_p cons_p (range (py_int q))
                {| Battery.soc_wh := init1 / 100 * (cap1 * 1000);
                   Battery.soc_history_wh := [];
                   Battery.net_power_acc := [] |}
                {| Battery.soc_wh := init2 / 100 * (cap2 * 1000);
                   Battery.soc_history_wh := [];
                   Battery.net_power_acc := [] |} eq_refl) as H.
  destruct (for_each (Battery.loop_body (cap1 * 1000) _ _ _ _) _ _)
    as [e1 | st1];
    destruct (for_each (Battery.loop_body (cap2 * 1000) _ _ _ _) _ _)
      as [e2 | st2]; cbn [on_success bind ret] in *; try discriminate.
  - injection H as ->. reflexivity.
  - injection H as H. unfold power_outputs. cbn. rewrite H. reflexivity.
Qed.

(** ** The one-hour scenario *)

Lemma INR_3600 : INR 3600 = 3600.
Proof. rewrite INR_IZR_INZ. reflexivity. Qed.

(** C6: capacity 8 kWh, initial SOC 100 %, solar 75 W, consumption 450 W,
    regen 0 W at every step, 3600 s in steps of 1 s: the run records a
    net power of -375 W at each of the 3600 steps, the SOC recorded at
    step [i] is the unclamped sum [8000 - (i + 1) * 375 / 3600] Wh, and
    the last recorded SOC is 7.625 kWh. *)
Theorem one_hour_scenario :
  exists out,
    Battery.simulate_battery_scenario 8 100 3600 1 (Some (repeat 0 3600))
      75 450 = inr out /\
    length (Battery.net_power_profile out) = 3600%nat /\
    Forall (fun p => p = -375) (Battery.net_power_profile out) /\
    length (Battery.soc_history_kwh out) = 3600%nat /\
    (forall i, (i < 3600)%nat ->
       nth i (Battery.soc_history_kwh out) 0 =
       (8000 - INR (S i) * 375 / 3600) / 1000) /\
    last (Battery.soc_history_kwh out) 0 = 7.625.
Proof.
  assert (Hsteps : py_int (3600 / 1) = Z.of_nat 3600).
  { replace (3600 / 1) with (INR 3600) by (rewrite INR_3600; lra).
    apply py_int_INR. }
  assert (Hrun := simulate_run 8 100 3600 1 (Some (repeat 0 3600)) 75 450
                    3600 (repeat 0 3600) ltac:(lra) Hsteps eq_refl
                    ltac:(rewrite repeat_length; lia)).
  rewrite firstn_all2 in Hrun by (rewrite repeat_length; lia).
  rewrite soc_trace_linear in Hrun.
  2:{ intros k Hk.
      assert (Hk1 : 1 <= INR k).
      { change 1 with (INR 1). apply le_INR. lia. }
      assert (Hk2 : INR k <= 3600).
      { rewrite <- INR_3600. apply le_INR. lia. }
      lra. }
  eexists. split; [exact Hrun |].
  cbn [Battery.net_power_profile Battery.soc_history_kwh].
  split; [rewrite length_map; apply repeat_length |].
  split.
  { apply Forall_map, Forall_forall. intros r Hr.
    apply repeat_spec in Hr. subst r. lra. }
  split; [rewrite !length_map; apply length_seq |].
  split.
  - intros i Hi.
    rewrite (nth_indep _ 0 ((100 / 100 * (8 * 1000)
              + INR (S 0) * ((0 + 75) * (1 / 3600) - 450 * (1 / 3600))) / 1000))
      by (rewrite !length_map, length_seq; exact Hi).
    rewrite (map_nth (fun w => w / 1000)).
    rewrite (map_nth (fun k => 100 / 100 * (8 * 1000)
              + INR (S k) * ((0 + 75) * (1 / 3600) - 450 * (1 / 3600)))).
    rewrite seq_nth by exact Hi. rewrite Nat.add_0_l. lra.
  - change 3600%nat with (S 3599).
    rewrite seq_S, !map_app. cbn [map]. rewrite last_last.
    rewrite Nat.add_0_l. change (S 3599) with 3600%nat.
    rewrite INR_3600. lra.
Qed.

(** ** The generated sample regen profile *)

Lemma PI_gt_3 : 3 < PI.
Proof. pose proof PI2_3_2. lra. Qed.

(** [x - x^3 / 6 <= sin x] on [0, PI]. *)
Lemma sin_cubic_lower (x : R) : 0 <= x -> x <= PI -> x - x * x * x / 6 <= sin x.
Proof.
  intros H0 H1. destruct (sin_bound x 0 H0 H1) as [Hlb _].
  unfold sin_approx, sin_term in Hlb. simpl in Hlb.
  unfold Rdiv in Hlb. rewrite !Rmult_1_r in Hlb. lra.
Qed.

Lemma sin_pi_599_lower : 0.005 < sin (PI / 599).
Proof.
  pose proof PI_gt_3 as H3. pose proof PI_4 as H4.
  assert (Hx0 : 3 / 599 < PI / 599) by lra.
  assert (Hx1 : PI / 599 <= 4 / 599) by lra.
  pose proof (sin_cubic_lower (PI / 599) ltac:(lra) ltac:(lra)) as Hs.
  set (x := PI / 599) in *.
  assert (Hxx : x * x <= 4 / 599 * (4 / 599)) by nra.
  assert (Hxxx : x * x * x <= 4 / 599 * (4 / 599) * (4 / 599)) by nra.
  lra.
Qed.

Lemma INR_of_Z (n : nat) (z : Z) : Z.of_nat n = z -> INR n = IZR z.
Proof. intros <-. apply INR_IZR_INZ. Qed.

(** C3 at [total_time_sec = 600], [dt_sec = 1], no regen profile given:
    the 600 sample times are [np.linspace(0, 600, 600)], that is
    [i * 600 / 599] with the last one at 600 s itself; the profile holds
    [75 * (1 + sin (2 * PI * t / 600))] at each of them; no sample lies at
    300 s, and the value at index 300 is [75 * (1 - sin (PI / 599))],
    below 74.63 W. *)
Theorem sample_regen_profile_600 :
  exists times out,
    np.linspace 0 600 600 = inr times /\
    Battery.simulate_battery_scenario 8 100 600 1 None 50 500 = inr out /\
    Battery.regen_power_profile out =
      map (fun t => 75 * (1 + sin (2 * PI * t / 600))) times /\
    length times = 600%nat /\
    (forall i, (i < 599)%nat -> nth i times 0 = INR i * 600 / 599) /\
    nth 599 times 0 = 600 /\
    Forall (fun t => t <> 300) times /\
    nth 300 (Battery.regen_power_profile out) 0 = 75 * (1 - sin (PI / 599)) /\
    nth 300 (Battery.regen_power_profile out) 0 < 74.63.
Proof.
  destruct (linspace_of_nat 0 600 600) as [times [Hl Hlen]].
  exists times.
  assert (H600 : INR 600 = 600) by (apply INR_of_Z; reflexivity).
  assert (Hsteps : py_int (600 / 1) = Z.of_nat 600).
  { replace (600 / 1) with (INR 600) by (rewrite H600; lra).
    apply py_int_INR. }
  assert (Hregen : resolve_regen None 600 (Z.of_nat 600) =
                   inr (map (fun t => 75 * (1 + sin (2 * PI * t / 600))) times)).
  { unfold resolve_regen, Battery.sample_regen_profile.
    rewrite Hl. reflexivity. }
  assert (Hinner : forall i, (i < 599)%nat -> nth i times 0 = INR i * 600 / 599).
  { intros i Hi.
    rewrite (linspace_nth_inner 0 600 600 i times 0 Hl) by lia.
    replace (IZR (Z.of_nat 600 - 1)) with 599
      by (apply f_equal; reflexivity).
    lra. }
  assert (Hlast : nth 599 times 0 = 600).
  { apply (linspace_nth_last 0 600 600 times 0 Hl). lia. }
  assert (H300 : nth 300 (map (fun t => 75 * (1 + sin (2 * PI * t / 600)))
                            times) 0 = 75 * (1 - sin (PI / 599))).
  { rewrite (nth_indep _ 0 (75 * (1 + sin (2 * PI * 0 / 600))))
      by (rewrite length_map, Hlen; lia).
    rewrite (map_nth (fun t => 75 * (1 + sin (2 * PI * t / 600)))).
    rewrite Hinner by lia.
    replace (INR 300) with 300 by (symmetry; apply INR_of_Z; reflexivity).
    replace (2 * PI * (300 * 600 / 599) / 600) with (PI / 599 + PI) by lra.
    rewrite neg_sin. lra. }
  eexists. split; [exact Hl |]. split.
  { apply (simulate_run 8 100 600 1 None 50 500 600 _ ltac:(lra) Hsteps Hregen).
    rewrite length_map, Hlen. lia. }
  cbn [Battery.regen_power_profile].
  split; [reflexivity |]. split; [exact Hlen |].
  split; [exact Hinner |]. split; [exact Hlast |].
  split.
  { apply Forall_forall. intros t Ht.
    destruct (In_nth _ _ 0 Ht) as [i [Hi <-]]. rewrite Hlen in Hi.
    destruct (Nat.eq_dec i 599) as [-> | Hne].
    - rewrite Hlast. lra.
    - rewrite Hinner by lia. intros Heq.
      assert (H2 : INR (2 * i) = INR 599).
      { rewrite mult_INR.
        replace (INR 599) with 599 by (symmetry; apply INR_of_Z; reflexivity).
        replace (INR 2) with 2 by (symmetry; apply INR_of_Z; reflexivity).
        lra. }
      apply INR_eq in H2. lia. }
  split; [exact H300 |].
  rewrite H300. pose proof sin_pi_599_lower. lra.
Qed.

(** ** BLDC generator: claims *)

Lemma linspace_0_1_3 : np.linspace 0 1 3 = inr [0; 1 / 2; 1].
Proof.
  unfold np.linspace, np.arange.
  change (3 <? 0)%Z with false. change (3 - 1 >? 0)%Z with true.
  change (3 >? 1)%Z with true. change (Z.to_nat 3) with 3%nat.
  cbn [seq map np.set_last]. change (3 - 1)%Z with 2%Z.
  unfold ret. do 2 f_equal; [simpl; lra |].
  f_equal. simpl. lra.
Qed.

Lemma back_emf_eval (s : R) :
  BLDC.back_emf s =
    inr [BLDC.emf_constant * sin (s * 0 * BLDC.num_poles + 0);
         BLDC.emf_constant * sin (s * (1 / 2) * BLDC.num_poles + -2 * PI / 3);
         BLDC.emf_constant * sin (s * 1 * BLDC.num_poles + 2 * PI / 3)].
Proof.
  unfold BLDC.back_emf. rewrite linspace_0_1_3.
  cbn [bind ret map BLDC.phase_offsets np.elementwise length Nat.eqb
       np.zip_with].
  reflexivity.
Qed.

(** C4: for every rotor speed [s], [back_emf s] is the 3-vector whose
    k-th component is [emf_constant * sin (s * v_k * num_poles + offset_k)]
    with [(v_0, v_1, v_2) = np.linspace(0, 1, 3) = (0, 1/2, 1)] and offsets
    [(0, -2 PI / 3, 2 PI / 3)]; the three phases therefore use the angles
    [0], [6 s] and [12 s] rather than one shared angle [s * num_poles]. *)
Theorem back_emf_components (s : R) :
  np.linspace 0 1 3 = inr [0; 1 / 2; 1] /\
  BLDC.back_emf s =
    inr [BLDC.emf_constant * sin (s * 0 * BLDC.num_poles + 0);
         BLDC.emf_constant * sin (s * (1 / 2) * BLDC.num_poles + -2 * PI / 3);
         BLDC.emf_constant * sin (s * 1 * BLDC.num_poles + 2 * PI / 3)] /\
  [s * 0 * BLDC.num_poles; s * (1 / 2) * BLDC.num_poles; s * 1 * BLDC.num_poles]
    = [0; 6 * s; 12 * s].
Proof.
  split; [exact linspace_0_1_3 |]. split.
  - apply back_emf_eval.
  - unfold BLDC.num_poles.
    f_equal; [lra |]. f_equal; [lra |]. f_equal. lra.
Qed.

(** C5: for every state vector [[speed; ia; ib; ic]], with
    [emf = back_emf speed], the state-derivative function returns, in
    order, [(ia * emf_0 + ib * emf_1 + ic * emf_2 - load_torque) /
    rotor_inertia] and, for each phase [k],
    [(emf_k - resistance * current_k) / inductance]. *)
Theorem bldc_gen_model_derivative (t speed ia ib ic : R) :
  exists ea eb ec,
    BLDC.back_emf speed = inr [ea; eb; ec] /\
    BLDC.bldc_gen_model t [speed; ia; ib; ic] =
      inr [(ia * ea + ib * eb + ic * ec - BLDC.load_torque)
             / BLDC.rotor_inertia;
           (ea - BLDC.resistance * ia) / BLDC.inductance;
           (eb - BLDC.resistance * ib) / BLDC.inductance;
           (ec - BLDC.resistance * ic) / BLDC.inductance].
Proof.
  pose proof (back_emf_eval speed) as Hemf.
  do 3 eexists. split; [exact Hemf |].
  unfold BLDC.bldc_gen_model. cbn [index nth_error bind ret tl].
  rewrite Hemf.
  cbn [bind ret np.dot np.elementwise length Nat.eqb np.dot_same
       np.zip_with map app].
  unfold ret. do 2 f_equal. unfold Rdiv. ring.
Qed.

Lemma Rmax_0_nonneg (x : R) : 0 <= Rmax x 0.
Proof. apply Rmax_r. Qed.

Lemma Rmax_0_clamp (x : R) : Rmax x 0 = if Rlt_dec x 0 then 0 else x.
Proof.
  unfold Rmax. destruct (Rle_dec x 0), (Rlt_dec x 0); lra.
Qed.

Lemma zip_with_map {A : Type} (f : R -> R -> R) (g h : A -> R) (l : list A) :
  np.zip_with f (map g l) (map h l) = map (fun s => f (g s) (h s)) l.
Proof.
  induction l as [| s rest IH]; simpl; [reflexivity |].
  rewrite IH. reflexivity.
Qed.

Lemma elementwise_map {A : Type} (f : R -> R -> R) (g h : A -> R) (l : list A) :
  np.elementwise f (map g l) (map h l) = inr (map (fun s => f (g s) (h s)) l).
Proof.
  unfold np.elementwise. rewrite !length_map, Nat.eqb_refl, zip_with_map.
  reflexivity.
Qed.

Lemma rectify_dc_array_samples (samples : list (R * R * R)) :
  BLDC.rectify_dc_array
    (map (fun s => fst (fst s)) samples)
    (map (fun s => snd (fst s)) samples)
    (map snd samples) =
  inr (map (fun s => BLDC.rectify_dc (fst (fst s)) (snd (fst s)) (snd s))
         samples).
Proof.
  unfold BLDC.rectify_dc_array. rewrite !map_map.
  rewrite elementwise_map. cbn [bind].
  rewrite elementwise_map. cbn [bind ret].
  rewrite map_map. reflexivity.
Qed.

(** C8: for every triple of phase currents, [rectify_dc ia ib ic] is the
    mean of the three values after each is clamped to be at least 0, and
    is at least 0; on sampled current sequences the function is applied
    sample by sample, so every sample of the rectified output is at
    least 0. *)
Theorem rectify_dc_mean_nonneg (ia ib ic : R) (samples : list (R * R * R)) :
  BLDC.rectify_dc ia ib ic =
    mean (map (fun x => if Rlt_dec x 0 then 0 else x) [ia; ib; ic]) /\
  0 <= BLDC.rectify_dc ia ib ic /\
  exists out,
    BLDC.rectify_dc_array
      (map (fun s => fst (fst s)) samples)
      (map (fun s => snd (fst s)) samples)
      (map snd samples) = inr out /\
    out = map (fun s => BLDC.rectify_dc (fst (fst s)) (snd (fst s)) (snd s))
            samples /\
    Forall (fun v => 0 <= v) out.
Proof.
  assert (Hpos : forall a b c, 0 <= BLDC.rectify_dc a b c).
  { intros a b c. unfold BLDC.rectify_dc.
    pose proof (Rmax_0_nonneg a). pose proof (Rmax_0_nonneg b).
    pose proof (Rmax_0_nonneg c). lra. }
  split; [| split].
  - unfold BLDC.rectify_dc, mean. cbn [map fold_right length].
    rewrite <- !Rmax_0_clamp.
    replace (INR 3) with 3 by (simpl; lra). lra.
  - apply Hpos.
  - eexists. split; [apply rectify_dc_array_samples |].
    split; [reflexivity |].
    apply Forall_map, Forall_forall. intros s _. apply Hpos.
Qed.

(** * Further properties of the battery simulation *)

(** ** Which exception, and when *)

Lemma loop_index_error (cap_wh dt_sec solar_w consumption_w : R)
  (regen : list R) (m n : nat) :
  forall (a : nat) (st : Battery.LoopState),
  (a <= length regen)%nat ->
  (length regen < a + n)%nat ->
  (a + n <= m)%nat ->
  for_each
    (Battery.loop_body cap_wh dt_sec regen
       (repeat solar_w m) (repeat consumption_w m))
    (seq a n) st = inl IndexError.
Proof.
  induction n as [| n IH]; intros a st Ha Hlen Hm.
  - lia.
  - cbn [seq for_each]. unfold Battery.loop_body at 1. unfold index at 1.
    destruct (Nat.eq_dec a (length regen)) as [-> | Hne].
    + rewrite (proj2 (nth_error_None regen (length regen))) by lia.
      reflexivity.
    + destruct (skipn_cons_nth regen a ltac:(lia)) as [r [Hr _]].
      rewrite Hr. cbn [bind ret].
      rewrite !index_repeat by lia. cbn [bind ret].
      apply IH; lia.
Qed.

Lemma linspace_negative (start stop : R) (n : Z) :
  (n < 0)%Z -> np.linspace start stop n = inl ValueError.
Proof.
  intros Hn. unfold np.linspace.
  destruct (Z.ltb_spec n 0); [reflexivity | lia].
Qed.

Lemma simulate_zero_dt
  (cap init total : R) (regen_opt : option (list R)) (solar cons : R) :
  Battery.simulate_battery_scenario cap init total 0 regen_opt solar cons
    = inl ZeroDivisionError.
Proof.
  unfold Battery.simulate_battery_scenario, py_div.
  destruct (Req_dec_T 0 0) as [_ | H]; [reflexivity | contradiction].
Qed.

Lemma simulate_negative_steps
  (cap init total dt : R) (regen_opt : option (list R)) (solar cons : R) :
  dt <> 0 -> (py_int (total / dt) < 0)%Z ->
  Battery.simulate_battery_scenario cap init total dt regen_opt solar cons
    = inl ValueError.
Proof.
  intros Hdt Hneg. unfold Battery.simulate_battery_scenario, py_div.
  destruct (Req_dec_T dt 0); [contradiction |]. cbn [bind ret].
  destruct regen_opt as [profile |].
  - cbn [bind ret]. rewrite full_negative by exact Hneg. reflexivity.
  - unfold Battery.sample_regen_profile.
    rewrite linspace_negative by exact Hneg. reflexivity.
Qed.

Lemma simulate_short_profile
  (cap init total dt : R) (profile : list R) (solar cons : R) :
  dt <> 0 ->
  (Z.of_nat (length profile) < py_int (total / dt))%Z ->
  Battery.simulate_battery_scenario cap init total dt (Some profile)
    solar cons = inl IndexError.
Proof.
  intros Hdt Hshort.
  set (N := Z.to_nat (py_int (total / dt))).
  assert (HN : py_int (total / dt) = Z.of_nat N) by (unfold N; lia).
  unfold Battery.simulate_battery_scenario, py_div.
  destruct (Req_dec_T dt 0); [contradiction |].
  cbn [bind ret]. rewrite HN, !full_of_nat. cbn [bind].
  unfold range. rewrite Nat2Z.id.
  rewrite loop_index_error by lia. reflexivity.
Qed.

(** A run that returns had a non-zero time step and a step count that is
    not negative; a supplied profile had at least that many entries. *)
Lemma simulate_returns_inv
  (cap init total dt : R) (regen_opt : option (list R)) (solar cons : R)
  (out : Battery.Output) :
  Battery.simulate_battery_scenario cap init total dt regen_opt solar cons
    = inr out ->
  dt <> 0 /\ (0 <= py_int (total / dt))%Z /\
  match regen_opt with
  | Some profile => (py_int (total / dt) <= Z.of_nat (length profile))%Z
  | None => True
  end.
Proof.
  intros Hrun.
  assert (Hdt : dt <> 0).
  { intros ->. rewrite simulate_zero_dt in Hrun. discriminate. }
  assert (Hpos : (0 <= py_int (total / dt))%Z).
  { destruct (Z_lt_le_dec (py_int (total / dt)) 0) as [Hneg | H]; [| exact H].
    rewrite simulate_negative_steps in Hrun by assumption. discriminate. }
  split; [exact Hdt |]. split; [exact Hpos |].
  destruct regen_opt as [profile |]; [| exact I].
  destruct (Z_lt_le_dec (Z.of_nat (length profile)) (py_int (total / dt)))
    as [Hshort | H]; [| exact H].
  rewrite simulate_short_profile in Hrun by assumption. discriminate.
Qed.

(** ** Runs of zero steps, and profiles longer than the run *)

Lemma py_int_small (x : R) : -1 < x < 1 -> py_int x = 0%Z.
Proof.
  intros [Hlo Hhi]. unfold py_int. destruct (Rle_dec 0 x) as [H | H].
  - symmetry. apply Int_part_spec. simpl. lra.
  - assert (H0 : Int_part (- x) = 0%Z)
      by (symmetry; apply Int_part_spec; simpl; lra).
    rewrite H0. reflexivity.
Qed.

(** X3: A duration shorter than one time step, of either sign, gives a run of
    zero steps: every returned array is empty, except a supplied regen
    profile, which comes back as it was given. *)
Theorem zero_steps_empty
  (cap init total dt : R) (regen_opt : option (list R)) (solar cons : R) :
  dt <> 0 ->
  -1 < total / dt < 1 ->
  Battery.simulate_battery_scenario cap init total dt regen_opt solar cons =
  inr {| Battery.time_minutes := [];
         Battery.soc_history_kwh := [];
         Battery.regen_power_profile :=
           match regen_opt with Some profile => profile | None => [] end;
         Battery.solar_power_profile := [];
         Battery.net_power_profile := [] |}.
Proof.
  intros Hdt Hsmall.
  assert (HN : py_int (total / dt) = Z.of_nat 0) by (apply py_int_small, Hsmall).
  assert (Hregen : resolve_regen regen_opt total (Z.of_nat 0) =
                   inr match regen_opt with Some p => p | None => [] end).
  { destruct regen_opt as [p |]; reflexivity. }
  rewrite (simulate_run cap init total dt regen_opt solar cons 0 _
             Hdt HN Hregen ltac:(lia)).
  reflexivity.
Qed.

Lemma zero_steps_empty_witness :
  Battery.simulate_battery_scenario 8 100 (-0.5) 1 (Some [10; 20]) 50 500 =
  inr {| Battery.time_minutes := [];
         Battery.soc_history_kwh := [];
         Battery.regen_power_profile := [10; 20];
         Battery.solar_power_profile := [];
         Battery.net_power_profile := [] |}.
Proof.
  apply (zero_steps_empty 8 100 (-0.5) 1 (Some [10; 20]) 50 500); lra.
Defined.

(** X4: Entries of a supplied profile beyond the step count are never read:
    appending to a profile that was long enough changes nothing in the
    result but the returned profile. *)
Theorem profile_tail_ignored
  (cap init total dt : R) (profile extra : list R) (solar cons : R)
  (out : Battery.Output) :
  Battery.simulate_battery_scenario cap init total dt (Some profile)
    solar cons = inr out ->
  Battery.simulate_battery_scenario cap init total dt
    (Some (profile ++ extra)) solar cons =
  inr {| Battery.time_minutes := Battery.time_minutes out;
         Battery.soc_history_kwh := Battery.soc_history_kwh out;
         Battery.regen_power_profile := profile ++ extra;
         Battery.solar_power_profile := Battery.solar_power_profile out;
         Battery.net_power_profile := Battery.net_power_profile out |}.
Proof.
  intros Hrun.
  destruct (simulate_returns_inv _ _ _ _ _ _ _ _ Hrun) as (Hdt & Hpos & Hlen).
  set (N := Z.to_nat (py_int (total / dt))).
  assert (HN : py_int (total / dt) = Z.of_nat N) by (unfold N; lia).
  rewrite (simulate_run cap init total dt (Some profile) solar cons N profile
             Hdt HN eq_refl ltac:(lia)) in Hrun.
  injection Hrun as <-.
  rewrite (simulate_run cap init total dt (Some (profile ++ extra)) solar cons
             N (profile ++ extra) Hdt HN eq_refl
             ltac:(rewrite length_app; lia)).
  cbn [Battery.time_minutes Battery.soc_history_kwh
       Battery.solar_power_profile Battery.net_power_profile].
  rewrite firstn_app.
  replace (N - length profile)%nat with 0%nat by lia.
  rewrite firstn_O, app_nil_r. reflexivity.
Qed.

Lemma profile_tail_ignored_witness :
  exists out,
    Battery.simulate_battery_scenario 8 100 1 1 (Some [10]) 50 500 = inr out /\
    Battery.simulate_battery_scenario 8 100 1 1 (Some ([10] ++ [20; 30]))
      50 500 =
    inr {| Battery.time_minutes := Battery.time_minutes out;
           Battery.soc_history_kwh := Battery.soc_history_kwh out;
           Battery.regen_power_profile := [10] ++ [20; 30];
           Battery.solar_power_profile := Battery.solar_power_profile out;
           Battery.net_power_profile := Battery.net_power_profile out |}.
Proof.
  assert (HN : py_int (1 / 1) = Z.of_nat 1).
  { replace (1 / 1) with (INR 1) by (simpl; lra). apply py_int_INR. }
  pose proof (simulate_run 8 100 1 1 (Some [10]) 50 500 1 [10]
                ltac:(lra) HN eq_refl ltac:(simpl; lia)) as Hrun.
  eexists. split; [exact Hrun |].
  apply (profile_tail_ignored 8 100 1 1 [10] [20; 30] 50 500 _ Hrun).
Defined.

(** ** How one step moves the SOC *)


Lemma next_soc_mono (cap_wh dt_sec solar_w consumption_w s1 s2 regen_w : R) :
  s1 <= s2 ->
  next_soc cap_wh dt_sec solar_w consumption_w s1 regen_w <=
  next_soc cap_wh dt_sec solar_w consumption_w s2 regen_w.
Proof.
  intros Hs. unfold next_soc.
  set (d := (regen_w + solar_w) * (dt_sec / 3600)
            - consumption_w * (dt_sec / 3600)).
  unfold py_min, py_max.
  destruct (Rlt_dec (s1 + d) 0); destruct (Rlt_dec (s2 + d) 0);
    repeat match goal with
           | |- context [Rlt_dec cap_wh ?x] => destruct (Rlt_dec cap_wh x)
           end; lra.
Qed.



Lemma nth_map_div1000 (l : list R) (k : nat) :
  nth k (map (fun w => w / 1000) l) 0 = nth k l 0 / 1000.
Proof.
  destruct (Nat.lt_ge_cases k (length l)) as [Hk | Hk].
  - rewrite (nth_indep _ 0 (0 / 1000)) by (rewrite length_map; exact Hk).
    apply (map_nth (fun w => w / 1000)).
  - rewrite !nth_overflow by (rewrite ?length_map; exact Hk). lra.
Qed.




(** ** Pure discharge and pure charge *)








Section Monotone.

Variables cap_wh dt_sec solar_w consumption_w : R.

Local Notation "'step_energy'" :=
  (fun r : R => (r + solar_w - consumption_w) * (dt_sec / 3600)).
Local Notation "'trace'" := (soc_trace cap_wh dt_sec solar_w consumption_w).



End Monotone.








(** ** Comparing and chaining runs *)

Lemma soc_trace_mono
  (cap_wh dt_sec solar_w consumption_w : R) (regen : list R) :
  forall (s1 s2 : R) (i : nat),
  s1 <= s2 -> (i < length regen)%nat ->
  nth i (soc_trace cap_wh dt_sec solar_w consumption_w s1 regen) 0 <=
  nth i (soc_trace cap_wh dt_sec solar_w consumption_w s2 regen) 0.
Proof.
  induction regen as [| r rest IH]; intros s1 s2 i Hs Hi; simpl in Hi.
  - lia.
  - pose proof (next_soc_mono cap_wh dt_sec solar_w consumption_w s1 s2 r Hs).
    destruct i as [| i]; cbn [soc_trace nth].
    + assumption.
    + apply IH; [assumption | lia].
Qed.

(** X8: A higher initial charge never gives a lower SOC: two valid runs that
    differ only in [initial_soc_percent] record SOC values ordered, step
    by step, like the initial charges. *)
Theorem soc_monotone_in_initial_soc
  (cap init1 init2 total dt : R) (regen_opt : option (list R))
  (solar cons : R) (N : nat) :
  valid_config cap init1 total dt regen_opt N ->
  init1 <= init2 ->
  exists out1 out2,
    Battery.simulate_battery_scenario cap init1 total dt regen_opt solar cons
      = inr out1 /\
    Battery.simulate_battery_scenario cap init2 total dt regen_opt solar cons
      = inr out2 /\
    forall i, (i < N)%nat ->
      nth i (Battery.soc_history_kwh out1) 0 <=
      nth i (Battery.soc_history_kwh out2) 0.
Proof.
  intros Hvalid Hinit.
  destruct (valid_config_run _ _ _ _ _ _ Hvalid)
    as (Hdt & Hsteps & regen & Hregen & Hlen).
  destruct Hvalid as (Hcap & _).
  do 2 eexists. split; [| split].
  - apply (simulate_run cap init1 total dt regen_opt solar cons N regen);
      assumption.
  - apply (simulate_run cap init2 total dt regen_opt solar cons N regen);
      assumption.
  - cbn [Battery.soc_history_kwh]. intros i Hi.
    rewrite !nth_map_div1000.
    assert (Hs : init1 / 100 * (cap * 1000) <= init2 / 100 * (cap * 1000))
      by nra.
    pose proof (soc_trace_mono (cap * 1000) dt solar cons (firstn N regen)
                  _ _ i Hs
                  ltac:(rewrite firstn_length_le by exact Hlen; exact Hi)).
    lra.
Qed.

Lemma soc_monotone_in_initial_soc_witness :
  valid_config 8 40 3 1 (Some [0; 0; 0]) 3 /\
  40 <= 90 /\
  exists out1 out2,
    Battery.simulate_battery_scenario 8 40 3 1 (Some [0; 0; 0]) 75 450
      = inr out1 /\
    Battery.simulate_battery_scenario 8 90 3 1 (Some [0; 0; 0]) 75 450
      = inr out2 /\
    forall i, (i < 3)%nat ->
      nth i (Battery.soc_history_kwh out1) 0 <=
      nth i (Battery.soc_history_kwh out2) 0.
Proof.
  assert (Hvalid : valid_config 8 40 3 1 (Some [0; 0; 0]) 3).
  { unfold valid_config. simpl. repeat split; try lra; lia. }
  split; [exact Hvalid |]. split; [lra |].
  apply (soc_monotone_in_initial_soc 8 40 90 3 1 (Some [0; 0; 0]) 75 450 3
           Hvalid).
  lra.
Defined.








(** ** The generated regen profile *)

Lemma sample_regen_profile_times (total : R) (n : nat) :
  exists times,
    np.linspace 0 total (Z.of_nat n) = inr times /\
    length times = n /\
    Battery.sample_regen_profile total (Z.of_nat n) =
      inr (map (fun t => 75 * (1 + sin (2 * PI * t / 600))) times).
Proof.
  destruct (linspace_of_nat 0 total n) as [times [Hl Hlen]].
  exists times. split; [exact Hl |]. split; [exact Hlen |].
  unfold Battery.sample_regen_profile. rewrite Hl. reflexivity.
Qed.




(** X11: The generated profile is sampled on the closed interval: in a run of
    [N >= 2] steps without a regen profile, entry [i] is
    [75 * (1 + sin (2 PI t / 600))] at [t = i * total_time_sec / (N - 1)],
    so the last entry is taken at [total_time_sec] itself. *)
Theorem generated_profile_sample_times
  (cap init total dt solar cons : R) (N : nat) :
  dt <> 0 -> total / dt = INR N -> (2 <= N)%nat ->
  exists out,
    Battery.simulate_battery_scenario cap init total dt None solar cons
      = inr out /\
    length (Battery.regen_power_profile out) = N /\
    (forall i, (i < N)%nat ->
       nth i (Battery.regen_power_profile out) 0 =
       75 * (1 + sin (2 * PI * (INR i * total / (INR N - 1)) / 600))) /\
    nth (N - 1) (Battery.regen_power_profile out) 0 =
      75 * (1 + sin (2 * PI * total / 600)).
Proof.
  intros Hdt Hq HN2.
  assert (HN : py_int (total / dt) = Z.of_nat N)
    by (rewrite Hq; apply py_int_INR).
  destruct (sample_regen_profile_times total N) as (times & Hl & Hlen & Hsample).
  assert (HINR : INR N - 1 <> 0).
  { assert (2 <= INR N) by (change 2 with (INR 2); apply le_INR; exact HN2).
    lra. }
  assert (Hdiv : IZR (Z.of_nat N - 1) = INR N - 1)
    by (rewrite minus_IZR, <- INR_IZR_INZ; reflexivity).
  assert (Htimes : forall i, (i < N)%nat ->
            nth i times 0 = INR i * total / (INR N - 1)).
  { intros i Hi. destruct (Nat.eq_dec (S i) N) as [Hlast | Hinner].
    - replace i with (N - 1)%nat by lia.
      rewrite (linspace_nth_last 0 total N times 0 Hl HN2).
      rewrite minus_INR by lia. simpl. field. exact HINR.
    - rewrite (linspace_nth_inner 0 total N i times 0 Hl) by lia.
      rewrite Hdiv. field. exact HINR. }
  assert (Hnth : forall i, (i < N)%nat ->
            nth i (map (fun t => 75 * (1 + sin (2 * PI * t / 600))) times) 0 =
            75 * (1 + sin (2 * PI * nth i times 0 / 600))).
  { intros i Hi.
    rewrite (nth_indep _ 0 (75 * (1 + sin (2 * PI * 0 / 600))))
      by (rewrite length_map; lia).
    apply (map_nth (fun t => 75 * (1 + sin (2 * PI * t / 600)))). }
  eexists. split.
  { apply (simulate_run cap init total dt None solar cons N _
             Hdt HN Hsample). rewrite length_map. lia. }
  cbn [Battery.regen_power_profile].
  split; [rewrite length_map; exact Hlen |]. split.
  - intros i Hi. rewrite Hnth, Htimes by exact Hi. reflexivity.
  - rewrite Hnth by lia.
    rewrite (linspace_nth_last 0 total N times 0 Hl HN2). reflexivity.
Qed.

Lemma generated_profile_sample_times_witness :
  exists out,
    Battery.simulate_battery_scenario 8 100 3 1 None 75 450 = inr out /\
    length (Battery.regen_power_profile out) = 3%nat /\
    (forall i, (i < 3)%nat ->
       nth i (Battery.regen_power_profile out) 0 =
       75 * (1 + sin (2 * PI * (INR i * 3 / (INR 3 - 1)) / 600))) /\
    nth (3 - 1) (Battery.regen_power_profile out) 0 =
      75 * (1 + sin (2 * PI * 3 / 600)).
Proof.
  apply (generated_profile_sample_times 8 100 3 1 75 450 3);
    [lra | simpl; lra | lia].
Defined.

(** ** The script's summary figures *)


Lemma np_sum_range (lo hi : R) (l : list R) :
  Forall (fun x => lo <= x <= hi) l ->
  INR (length l) * lo <= np_sum l <= INR (length l) * hi.
Proof.
  unfold np_sum. induction 1 as [| x rest Hx _ IH].
  - simpl. lra.
  - cbn [length fold_right]. rewrite S_INR. lra.
Qed.

Lemma nth_length_pred_last (l : list R) (d : R) :
  nth (length l - 1) l d = last l d.
Proof.
  induction l as [| a [| b rest] IH]; try reflexivity.
  change (last (a :: b :: rest) d) with (last (b :: rest) d).
  rewrite <- IH. cbn [length]. rewrite !Nat.sub_succ, !Nat.sub_0_r.
  reflexivity.
Qed.

Lemma index_last_nonempty (l : list R) :
  l <> [] -> index_last l = inr (last l 0).
Proof. destruct l; [contradiction | reflexivity]. Qed.

Lemma last_Forall (P : R -> Prop) (l : list R) :
  l <> [] -> Forall P l -> P (last l 0).
Proof.
  intros Hne Hall. rewrite Forall_forall in Hall. apply Hall.
  destruct (exists_last Hne) as [l' [a ->]].
  rewrite last_last. apply in_or_app. right. left. reflexivity.
Qed.

(** What a valid run without a regen profile returns, with the facts the
    summary needs. *)
Lemma generated_run
  (cap init total dt solar cons : R) (N : nat) :
  valid_config cap init total dt None N ->
  exists regen,
    length regen = N /\
    Forall (fun r => 0 <= r <= 150) regen /\
    Battery.simulate_battery_scenario cap init total dt None solar cons =
    inr {| Battery.time_minutes :=
             map (fun i => i * dt / 60) (map INR (seq 0 N));
           Battery.soc_history_kwh :=
             map (fun w => w / 1000)
               (soc_trace (cap * 1000) dt solar cons
                  (init / 100 * (cap * 1000)) regen);
           Battery.regen_power_profile := regen;
           Battery.solar_power_profile := repeat solar N;
           Battery.net_power_profile :=
             map (fun r => r + solar - cons) regen |}.
Proof.
  intros (Hcap & Hinit & Hdt & HN & Hq & _).
  assert (Hsteps : py_int (total / dt) = Z.of_nat N)
    by (rewrite Hq; apply py_int_INR).
  destruct (sample_regen_profile_times total N) as (times & Hl & Hlen & Hsample).
  exists (map (fun t => 75 * (1 + sin (2 * PI * t / 600))) times).
  split; [rewrite length_map; exact Hlen |]. split.
  - apply Forall_map, Forall_forall. intros t _.
    pose proof (SIN_bound (2 * PI * t / 600)). lra.
  - rewrite (simulate_run cap init total dt None solar cons N _
               ltac:(lra) Hsteps Hsample ltac:(rewrite length_map; lia)).
    rewrite firstn_all2 by (rewrite length_map; lia). reflexivity.
Qed.

(** X12: The script cannot summarise an empty run: when the duration is
    shorter than one time step the run returns empty arrays and the
    script raises [IndexError] at [soc_kwh[-1]].  On every valid
    configuration it produces its summary, in which [final_soc_kwh] is
    the last recorded SOC. *)
Theorem report_outcome (cap init total dt solar cons : R) :
  (dt <> 0 -> -1 < total / dt < 1 ->
   BatteryScript.report cap init total dt solar cons = inl IndexError) /\
  (forall N, valid_config cap init total dt None N ->
     exists out summary,
       Battery.simulate_battery_scenario cap init total dt None solar cons
         = inr out /\
       BatteryScript.report cap init total dt solar cons = inr summary /\
       BatteryScript.final_soc_kwh summary
         = nth (N - 1) (Battery.soc_history_kwh out) 0 /\
       BatteryScript.final_soc_kwh summary
         = last (Battery.soc_history_kwh out) 0).
Proof.
  split.
  - intros Hdt Hsmall.
    assert (HN : py_int (total / dt) = Z.of_nat 0)
      by (apply py_int_small, Hsmall).
    unfold BatteryScript.report.
    rewrite (simulate_run cap init total dt None solar cons 0 []
               Hdt HN eq_refl ltac:(simpl; lia)).
    reflexivity.
  - intros N Hvalid.
    destruct (generated_run cap init total dt solar cons N Hvalid)
      as (regen & Hlen & Hrange & Hrun).
    destruct Hvalid as (Hcap & Hinit & Hdt & HN & Hq & _).
    set (tr := soc_trace (cap * 1000) dt solar cons
                 (init / 100 * (cap * 1000)) regen) in *.
    assert (Htrlen : length tr = N)
      by (unfold tr; rewrite soc_trace_length; exact Hlen).
    assert (Hne : map (fun w => w / 1000) tr <> []).
    { intros He. apply (f_equal (@length R)) in He.
      rewrite length_map, Htrlen in He. simpl in He. lia. }
    do 2 eexists. split; [exact Hrun |]. split.
    { unfold BatteryScript.report. rewrite Hrun.
      cbn [bind Battery.soc_history_kwh Battery.regen_power_profile
           Battery.solar_power_profile].
      rewrite (index_last_nonempty _ Hne). reflexivity. }
    cbn [BatteryScript.final_soc_kwh Battery.soc_history_kwh].
    split; [| reflexivity].
    rewrite <- Htrlen, <- (length_map (fun w => w / 1000) tr).
    symmetry. apply nth_length_pred_last.
Qed.






(** * Further properties of the BLDC generator model *)

(** ** Back-EMF *)

Lemma emf_constant_pos : 0 < BLDC.emf_constant.
Proof. unfold BLDC.emf_constant. lra. Qed.


(** X15: The first phase never sees any EMF: its angle is [speed * 0 *
    num_poles], so the first component of [back_emf] is 0 at every speed.
    At standstill the other two phases still carry
    [-/+ emf_constant * sqrt 3 / 2]. *)
Theorem back_emf_phase_a_zero (s : R) :
  (exists eb ec, BLDC.back_emf s = inr [0; eb; ec]) /\
  BLDC.back_emf 0 =
    inr [0; - (BLDC.emf_constant * (sqrt 3 / 2));
         BLDC.emf_constant * (sqrt 3 / 2)].
Proof.
  split.
  - do 2 eexists. rewrite back_emf_eval.
    replace (s * 0 * BLDC.num_poles + 0) with 0 by lra.
    rewrite sin_0, Rmult_0_r. reflexivity.
  - rewrite back_emf_eval.
    replace (0 * 0 * BLDC.num_poles + 0) with 0 by lra.
    replace (0 * (1 / 2) * BLDC.num_poles + -2 * PI / 3)
      with (- (2 * (PI / 3))) by lra.
    replace (0 * 1 * BLDC.num_poles + 2 * PI / 3) with (2 * (PI / 3)) by lra.
    rewrite sin_0, sin_neg, sin_2PI3, Rmult_0_r.
    do 2 f_equal. f_equal. lra.
Qed.

(** X16: [back_emf] is periodic in the rotor speed with period [PI / 3]. *)
Theorem back_emf_periodic (s : R) :
  BLDC.back_emf (s + PI / 3) = BLDC.back_emf s.
Proof.
  rewrite !back_emf_eval. unfold BLDC.num_poles.
  replace ((s + PI / 3) * 0 * 12 + 0) with (s * 0 * 12 + 0) by lra.
  replace ((s + PI / 3) * (1 / 2) * 12 + -2 * PI / 3)
    with (s * (1 / 2) * 12 + -2 * PI / 3 + 2 * INR 1 * PI) by (simpl; lra).
  replace ((s + PI / 3) * 1 * 12 + 2 * PI / 3)
    with (s * 1 * 12 + 2 * PI / 3 + 2 * INR 2 * PI) by (simpl; lra).
  rewrite !sin_period. reflexivity.
Qed.

(** ** The state-derivative function *)

Lemma back_emf_phases (s : R) :
  exists eb ec,
    BLDC.back_emf s = inr [0; eb; ec] /\
    Rabs eb <= BLDC.emf_constant /\ Rabs ec <= BLDC.emf_constant.
Proof.
  do 2 eexists. split.
  - rewrite back_emf_eval.
    replace (s * 0 * BLDC.num_poles + 0) with 0 by lra.
    rewrite sin_0, Rmult_0_r. reflexivity.
  - pose proof emf_constant_pos as Hc.
    split; apply Rabs_le;
      match goal with
      | |- context [sin ?x] => pose proof (SIN_bound x)
      end; split; nra.
Qed.

Lemma bldc_gen_model_eval (t speed ia ib ic eb ec : R) :
  BLDC.back_emf speed = inr [0; eb; ec] ->
  BLDC.bldc_gen_model t [speed; ia; ib; ic] =
    inr [(ib * eb + ic * ec - BLDC.load_torque) / BLDC.rotor_inertia;
         - (BLDC.resistance * ia) / BLDC.inductance;
         (eb - BLDC.resistance * ib) / BLDC.inductance;
         (ec - BLDC.resistance * ic) / BLDC.inductance].
Proof.
  intros Hemf. unfold BLDC.bldc_gen_model.
  cbn [index nth_error bind ret tl]. rewrite Hemf.
  cbn [bind ret np.dot np.elementwise length Nat.eqb np.dot_same
       np.zip_with map app].
  unfold ret. f_equal. f_equal; [unfold Rdiv; ring |].
  f_equal. unfold Rdiv. ring.
Qed.

(** X17: The state-derivative function needs a state of exactly four entries:
    it raises [IndexError] exactly on the empty state, [ValueError]
    exactly on a non-empty state whose length is not 4, and otherwise
    returns four derivatives. *)
Theorem bldc_gen_model_outcome (t : R) (y : list R) :
  match BLDC.bldc_gen_model t y with
  | inl IndexError => y = []
  | inl ValueError => y <> [] /\ length y <> 4%nat
  | inl ZeroDivisionError => False
  | inr d => length y = 4%nat /\ length d = 4%nat
  end.
Proof.
  destruct y as [| speed currents]; [reflexivity |].
  unfold BLDC.bldc_gen_model. cbn [index nth_error bind ret tl].
  rewrite back_emf_eval. cbn [bind]. unfold np.dot, np.elementwise.
  rewrite length_map. cbn [length].
  destruct (Nat.eqb_spec (length currents) 3) as [Hlen | Hlen].
  - cbn [bind ret]. rewrite Hlen. cbn [Nat.eqb bind ret].
    split; [lia |].
    destruct currents as [| a [| b [| c [| ? ?]]]]; try discriminate.
    reflexivity.
  - cbn [bind]. split; [discriminate | lia].
Qed.


(** X19: The first phase is decoupled from the rest of the model: its current
    obeys [d(ia)/dt = -(resistance * ia) / inductance] at every speed,
    and the speed derivative and the other two current derivatives do not
    depend on [ia]. *)
Theorem bldc_gen_model_phase_a_decoupled (t speed ib ic : R) :
  exists d_speed d_ib d_ic,
    forall ia,
      BLDC.bldc_gen_model t [speed; ia; ib; ic] =
        inr [d_speed; - (BLDC.resistance * ia) / BLDC.inductance; d_ib; d_ic].
Proof.
  destruct (back_emf_phases speed) as (eb & ec & Hemf & _).
  do 3 eexists. intros ia.
  apply (bldc_gen_model_eval t speed ia ib ic eb ec Hemf).
Qed.


(** ** Rectification *)

Lemma Rmax_0_abs (x : R) : Rmax x 0 = (x + Rabs x) / 2.
Proof.
  unfold Rmax, Rabs. destruct (Rle_dec x 0); destruct (Rcase_abs x); lra.
Qed.

(** X21: [rectify_dc] is a sixth of the sum of the currents plus the sum of
    their absolute values; for balanced currents ([ia + ib + ic = 0])
    that is a sixth of the sum of the absolute values. *)
Theorem rectify_dc_abs_form (ia ib ic : R) :
  BLDC.rectify_dc ia ib ic =
    ((ia + ib + ic) + (Rabs ia + Rabs ib + Rabs ic)) / 6 /\
  (ia + ib + ic = 0 ->
   BLDC.rectify_dc ia ib ic = (Rabs ia + Rabs ib + Rabs ic) / 6).
Proof.
  assert (H : BLDC.rectify_dc ia ib ic =
              ((ia + ib + ic) + (Rabs ia + Rabs ib + Rabs ic)) / 6).
  { unfold BLDC.rectify_dc. rewrite !Rmax_0_abs. lra. }
  split; [exact H |]. intros Hbal. rewrite H, Hbal. lra.
Qed.

(** X22: The rectified output is 0 when no phase current is positive,
    and it is never less than a third of the largest phase current. *)
Theorem rectify_dc_zero_and_floor (ia ib ic : R) :
  (ia <= 0 -> ib <= 0 -> ic <= 0 -> BLDC.rectify_dc ia ib ic = 0) /\
  Rmax ia (Rmax ib ic) / 3 <= BLDC.rectify_dc ia ib ic.
Proof.
  unfold BLDC.rectify_dc. split.
  - intros Ha Hb Hc. rewrite !Rmax_right by assumption. lra.
  - pose proof (Rmax_l ia 0). pose proof (Rmax_r ia 0).
    pose proof (Rmax_l ib 0). pose proof (Rmax_r ib 0).
    pose proof (Rmax_l ic 0). pose proof (Rmax_r ic 0).
    assert (Hmax : Rmax ia (Rmax ib ic)
                   <= Rmax ia 0 + Rmax ib 0 + Rmax ic 0).
    { apply Rmax_lub; [lra |]. apply Rmax_lub; lra. }
    lra.
Qed.

(** X23: [rectify_dc] is monotone: raising any phase current never lowers the
    output. *)
Theorem rectify_dc_monotone (ia ib ic ia' ib' ic' : R) :
  ia <= ia' -> ib <= ib' -> ic <= ic' ->
  BLDC.rectify_dc ia ib ic <= BLDC.rectify_dc ia' ib' ic'.
Proof.
  intros Ha Hb Hc. unfold BLDC.rectify_dc.
  pose proof (Rle_max_compat_r ia ia' 0 Ha).
  pose proof (Rle_max_compat_r ib ib' 0 Hb).
  pose proof (Rle_max_compat_r ic ic' 0 Hc).
  lra.
Qed.

Lemma rectify_dc_monotone_witness :
  BLDC.rectify_dc (-1) 2 0 <= BLDC.rectify_dc 1 2 3.
Proof.
  apply (rectify_dc_monotone (-1) 2 0 1 2 3); lra.
Defined.

(** * The battery simulation in binary64: properties *)

(** ** Comparisons and the clamp *)


(** A positive float is not zero. *)
Lemma pos_not_zero (x : float) :
  PrimFloat.ltb 0 x = true -> PrimFloat.eqb x 0 = false.
Proof.
  rewrite FloatAxioms.ltb_spec, FloatAxioms.eqb_spec. unfold SFltb, SFeqb.
  change (Prim2SF 0) with (S754_zero false).
  destruct (Prim2SF x) as [s | s | | s m e]; simpl;
    try discriminate; destruct s; try discriminate; reflexivity.
Qed.



Lemma soc_trace64_length (cap dt solar cons : float) (regen : list float) :
  forall soc, length (B64.soc_trace cap dt solar cons soc regen) = length regen.
Proof.
  induction regen as [| r rest IH]; intros soc; simpl; [reflexivity |].
  f_equal. apply IH.
Qed.


(** ** The loop and the run *)

Lemma skipn_cons_nth64 (l : list float) (a : nat) :
  (a < length l)%nat ->
  exists r, nth_error l a = Some r /\ skipn a l = r :: skipn (S a) l.
Proof.
  revert a. induction l as [| x l IH]; intros a Ha; simpl in Ha.
  - lia.
  - destruct a as [| a].
    + exists x. split; reflexivity.
    + destruct (IH a ltac:(lia)) as [r [H1 H2]].
      exists r. split; [exact H1 | exact H2].
Qed.

Lemma index64_repeat (v : float) (n i : nat) :
  (i < n)%nat -> B64.index (repeat v n) i = inr v.
Proof.
  intros Hi. unfold B64.index.
  rewrite (nth_error_nth' _ v) by (rewrite repeat_length; exact Hi).
  rewrite nth_repeat. reflexivity.
Qed.

Lemma np_full64_of_nat (n : nat) (v : float) :
  B64.np_full (Z.of_nat n) v = inr (repeat v n).
Proof.
  unfold B64.np_full. destruct (Z.ltb_spec (Z.of_nat n) 0); [lia |].
  rewrite Nat2Z.id. reflexivity.
Qed.

Lemma np_full64_negative (n : Z) (v : float) :
  (n < 0)%Z -> B64.np_full n v = inl B64.ValueError.
Proof.
  intros Hn. unfold B64.np_full. destruct (Z.ltb_spec n 0); [reflexivity | lia].
Qed.

Lemma loop_run64 (cap_wh dt_sec solar_w consumption_w : float)
  (regen : list float) (m n : nat) :
  forall (a : nat) (st : B64.LoopState),
  (a + n <= length regen)%nat ->
  (a + n <= m)%nat ->
  exists st',
    B64.for_each
      (B64.loop_body cap_wh dt_sec regen
         (repeat solar_w m) (repeat consumption_w m))
      (seq a n) st = inr st' /\
    B64.soc_history_wh st' =
      B64.soc_history_wh st ++
      B64.soc_trace cap_wh dt_sec solar_w consumption_w (B64.soc_wh st)
        (firstn n (skipn a regen)) /\
    B64.net_power_acc st' =
      B64.net_power_acc st ++
      map (fun r => (r + solar_w - consumption_w)%float)
        (firstn n (skipn a regen)).
Proof.
  induction n as [| n IH]; intros a st Hlen Hm.
  - exists st. simpl. rewrite !app_nil_r. repeat split.
  - destruct (skipn_cons_nth64 regen a ltac:(lia)) as [r [Hr Hskip]].
    cbn [seq B64.for_each]. unfold B64.loop_body at 1. unfold B64.index at 1.
    rewrite Hr. cbn [B64.bind B64.ret].
    rewrite !index64_repeat by lia. cbn [B64.bind B64.ret].
    match goal with
    | |- context [B64.for_each _ _ ?s] =>
        destruct (IH (S a) s) as [st' [H1 [H2 H3]]]
    end; try lia.
    exists st'. split; [exact H1 |].
    rewrite H2, H3, Hskip. cbn [firstn B64.soc_trace map B64.soc_wh
      B64.soc_history_wh B64.net_power_acc].
    rewrite <- !app_assoc. split; reflexivity.
Qed.

Lemma loop_index_error64 (cap_wh dt_sec solar_w consumption_w : float)
  (regen : list float) (m n : nat) :
  forall (a : nat) (st : B64.LoopState),
  (a <= length regen)%nat ->
  (length regen < a + n)%nat ->
  (a + n <= m)%nat ->
  B64.for_each
    (B64.loop_body cap_wh dt_sec regen
       (repeat solar_w m) (repeat consumption_w m))
    (seq a n) st = inl B64.IndexError.
Proof.
  induction n as [| n IH]; intros a st Ha Hlen Hm.
  - lia.
  - cbn [seq B64.for_each]. unfold B64.loop_body at 1. unfold B64.index at 1.
    destruct (Nat.eq_dec a (length regen)) as [-> | Hne].
    + rewrite (proj2 (nth_error_None regen (length regen))) by lia.
      reflexivity.
    + destruct (skipn_cons_nth64 regen a ltac:(lia)) as [r [Hr _]].
      rewrite Hr. cbn [B64.bind B64.ret].
      rewrite !index64_repeat by lia. cbn [B64.bind B64.ret].
      apply IH; lia.
Qed.

Lemma set_last64_length (y : list float) (v : float) :
  length (B64.set_last y v) = length y.
Proof.
  induction y as [| x [| x' rest] IH]; try reflexivity.
  change (B64.set_last (x :: x' :: rest) v)
    with (x :: B64.set_last (x' :: rest) v).
  cbn [length] in *. f_equal. exact IH.
Qed.

Lemma np_linspace64_of_nat (start stop : float) (n : nat) :
  exists l, B64.np_linspace start stop (Z.of_nat n) = inr l /\ length l = n.
Proof.
  unfold B64.np_linspace.
  destruct (Z.ltb_spec (Z.of_nat n) 0) as [H | _]; [lia |].
  eexists. split; [reflexivity |].
  assert (Hlen : forall f g : float -> float,
             length (map g (map f (B64.np_arange (Z.of_nat n)))) = n).
  { intros f g. unfold B64.np_arange.
    rewrite !length_map, length_seq. apply Nat2Z.id. }
  destruct (Z.of_nat n >? 1)%Z; [rewrite set_last64_length |];
    destruct (Z.of_nat n - 1 >? 0)%Z; try apply Hlen;
    destruct (PrimFloat.eqb _ 0); apply Hlen.
Qed.

(** The regen profile a binary64 run uses. *)
Lemma resolve_regen64 (np_sin : float -> float) (total : float)
  (regen_opt : option (list float)) (N : nat) :
  match regen_opt with
  | Some profile => (N <= length profile)%nat
  | None => True
  end ->
  exists regen,
    match regen_opt with
    | Some profile => B64.ret profile
    | None => B64.sample_regen_profile np_sin total (Z.of_nat N)
    end = inr regen /\
    (N <= length regen)%nat /\
    match regen_opt with
    | Some profile => regen = profile
    | None => length regen = N
    end.
Proof.
  intros Hlen. destruct regen_opt as [profile |].
  - exists profile. repeat split. exact Hlen.
  - unfold B64.sample_regen_profile.
    destruct (np_linspace64_of_nat 0 total N) as [l [Hl Hlenl]].
    rewrite Hl. cbn [B64.bind B64.ret]. eexists. split; [reflexivity |].
    rewrite length_map. split; lia.
Qed.

(** What a binary64 run of [N] steps returns. *)
Lemma simulate_run64 (np_sin : float -> float)
  (cap init total dt : float) (regen_opt : option (list float))
  (solar cons : float) (N : nat) :
  PrimFloat.eqb dt 0 = false ->
  B64.py_int (total / dt) = inr (Z.of_nat N) ->
  match regen_opt with
  | Some profile => (N <= length profile)%nat
  | None => True
  end ->
  exists regen,
    (N <= length regen)%nat /\
    match regen_opt with
    | Some profile => regen = profile
    | None => length regen = N
    end /\
    B64.simulate_battery_scenario np_sin cap init total dt regen_opt
      solar cons =
    inr {| B64.time_minutes :=
             map (fun i => (i * dt / 60)%float) (map B64.of_index (seq 0 N));
           B64.soc_history_kwh :=
             map (fun w => (w / 1000)%float)
               (B64.soc_trace (cap * 1000) dt solar cons
                  (init / 100 * (cap * 1000)) (firstn N regen));
           B64.regen_power_profile := regen;
           B64.solar_power_profile := repeat solar N;
           B64.net_power_profile :=
             map (fun r => (r + solar - cons)%float) (firstn N regen) |}.
Proof.
  intros Hdt Hsteps Hlen.
  destruct (resolve_regen64 np_sin total regen_opt N Hlen)
    as (regen & Hregen & HlenN & Hshape).
  exists regen. split; [exact HlenN |]. split; [exact Hshape |].
  unfold B64.simulate_battery_scenario, B64.py_div.
  rewrite Hdt. cbn [B64.bind B64.ret]. rewrite Hsteps. cbn [B64.bind].
  rewrite Hregen. cbn [B64.bind].
  rewrite !np_full64_of_nat. cbn [B64.bind].
  unfold B64.range, B64.np_arange. rewrite Nat2Z.id.
  destruct (loop_run64 (cap * 1000) dt solar cons regen N N 0
              {| B64.soc_wh := (init / 100 * (cap * 1000))%float;
                 B64.soc_history_wh := [];
                 B64.net_power_acc := [] |})
    as [st' [H1 [H2 H3]]]; try lia.
  rewrite H1. cbn [B64.bind B64.ret]. rewrite H2, H3. reflexivity.
Qed.

(** ** Where the recorded SOC lies *)




(** ** How many entries a run returns *)

(** C9, as the code has it in binary64: with [dt_sec > 0], a quotient
    [total_time_sec / dt_sec] whose integer part [N] exists and is not
    negative, and a supplied regen profile of at least [N] entries, the
    run returns; [time_minutes], [soc_history_kwh],
    [solar_power_profile] and [net_power_profile] have exactly [N]
    elements, [time_minutes[i] = i * dt_sec / 60], and the supplied
    profile is returned unchanged, whatever its length. *)
Theorem output_lengths_binary64
  (np_sin : float -> float) (cap init total dt : float)
  (profile : list float) (solar cons : float) (N : Z) :
  PrimFloat.ltb 0 dt = true ->
  B64.py_int (total / dt) = inr N ->
  (0 <= N)%Z ->
  (N <= Z.of_nat (length profile))%Z ->
  exists out,
    B64.simulate_battery_scenario np_sin cap init total dt (Some profile)
      solar cons = inr out /\
    Z.of_nat (length (B64.time_minutes out)) = N /\
    Z.of_nat (length (B64.soc_history_kwh out)) = N /\
    Z.of_nat (length (B64.solar_power_profile out)) = N /\
    Z.of_nat (length (B64.net_power_profile out)) = N /\
    (forall i, (Z.of_nat i < N)%Z ->
       nth i (B64.time_minutes out) 0%float
       = (B64.of_index i * dt / 60)%float) /\
    B64.regen_power_profile out = profile.
Proof.
  intros Hdt Hsteps Hpos Hlen.
  set (n := Z.to_nat N).
  assert (HN : N = Z.of_nat n) by (unfold n; lia).
  rewrite HN in Hsteps.
  assert (Hlen' : (n <= length profile)%nat) by lia.
  destruct (simulate_run64 np_sin cap init total dt (Some profile) solar cons n
              (pos_not_zero dt Hdt) Hsteps Hlen')
    as (regen & _ & -> & Hrun).
  eexists. split; [exact Hrun |].
  cbn [B64.time_minutes B64.soc_history_kwh B64.solar_power_profile
       B64.net_power_profile B64.regen_power_profile].
  rewrite !length_map, length_seq, soc_trace64_length, repeat_length.
  rewrite firstn_length_le by lia.
  repeat split; try (symmetry; exact HN).
  intros i Hi.
  rewrite (nth_indep _ 0%float (B64.of_index 0 * dt / 60)%float)
    by (rewrite !length_map, length_seq; lia).
  rewrite (map_nth (fun x => (x * dt / 60)%float)).
  rewrite (map_nth B64.of_index), seq_nth by lia.
  reflexivity.
Qed.

Lemma output_lengths_binary64_witness :
  exists out,
    B64.simulate_battery_scenario (fun t => t) 8 100 1 0.1
      (Some (repeat 0%float 12)) 50 500 = inr out /\
    Z.of_nat (length (B64.time_minutes out)) = 10%Z /\
    Z.of_nat (length (B64.soc_history_kwh out)) = 10%Z /\
    Z.of_nat (length (B64.solar_power_profile out)) = 10%Z /\
    Z.of_nat (length (B64.net_power_profile out)) = 10%Z /\
    (forall i, (Z.of_nat i < 10)%Z ->
       nth i (B64.time_minutes out) 0%float
       = (B64.of_index i * 0.1 / 60)%float) /\
    B64.regen_power_profile out = repeat 0%float 12.
Proof.
  apply (output_lengths_binary64 (fun t => t) 8 100 1 0.1
           (repeat 0%float 12) 50 500 10).
  - reflexivity.
  - vm_compute. reflexivity.
  - lia.
  - simpl. lia.
Defined.

(** ** Which exception, and when *)

Lemma py_int64_infinity (x : float) :
  PrimFloat.is_infinity x = true -> B64.py_int x = inl B64.OverflowError.
Proof.
  unfold PrimFloat.is_infinity, B64.py_int.
  rewrite FloatAxioms.eqb_spec, abs_spec. unfold SFeqb.
  change (Prim2SF infinity) with (S754_infinity false).
  destruct (Prim2SF x) as [s | s | | s m e]; simpl;
    try discriminate; reflexivity.
Qed.

Lemma py_int64_nan (x : float) :
  PrimFloat.is_nan x = true -> B64.py_int x = inl B64.ValueError.
Proof.
  unfold PrimFloat.is_nan, B64.py_int.
  rewrite FloatAxioms.eqb_spec. unfold SFeqb.
  destruct (Prim2SF x) as [s | s | | s m e]; simpl.
  - discriminate.
  - destruct s; discriminate.
  - reflexivity.
  - destruct s; rewrite Z.compare_refl, Pos.compare_cont_refl; discriminate.
Qed.

Lemma np_linspace64_negative (start stop : float) (n : Z) :
  (n < 0)%Z -> B64.np_linspace start stop n = inl B64.ValueError.
Proof.
  intros Hn. unfold B64.np_linspace.
  destruct (Z.ltb_spec n 0); [reflexivity | lia].
Qed.

(** The five ways a binary64 run can end. *)
Lemma simulate_cases64 (np_sin : float -> float)
  (cap init total dt : float) (regen_opt : option (list float))
  (solar cons : float) :
  let run := B64.simulate_battery_scenario np_sin cap init total dt
               regen_opt solar cons in
  (PrimFloat.eqb dt 0 = true /\ run = inl B64.ZeroDivisionError) \/
  (PrimFloat.eqb dt 0 = false /\
   exists e, B64.py_int (total / dt) = inl e /\ run = inl e) \/
  (PrimFloat.eqb dt 0 = false /\
   exists N, B64.py_int (total / dt) = inr N /\ (N < 0)%Z /\
             run = inl B64.ValueError) \/
  (PrimFloat.eqb dt 0 = false /\
   exists N profile,
     B64.py_int (total / dt) = inr N /\ regen_opt = Some profile /\
     (0 <= Z.of_nat (length profile) < N)%Z /\ run = inl B64.IndexError) \/
  (PrimFloat.eqb dt 0 = false /\
   exists (N : nat) out,
     B64.py_int (total / dt) = inr (Z.of_nat N) /\
     match regen_opt with
     | Some profile =>
         (N <= length profile)%nat /\ B64.regen_power_profile out = profile
     | None => length (B64.regen_power_profile out) = N
     end /\
     length (B64.time_minutes out) = N /\
     length (B64.soc_history_kwh out) = N /\
     length (B64.solar_power_profile out) = N /\
     length (B64.net_power_profile out) = N /\
     run = inr out).
Proof.
  intros run. unfold run.
  destruct (PrimFloat.eqb dt 0) eqn:Hdt.
  { left. split; [reflexivity |].
    unfold B64.simulate_battery_scenario, B64.py_div. rewrite Hdt.
    reflexivity. }
  right.
  destruct (B64.py_int (total / dt)) as [e | N] eqn:Hint.
  { left. split; [reflexivity |]. exists e. split; [reflexivity |].
    unfold B64.simulate_battery_scenario, B64.py_div. rewrite Hdt.
    cbn [B64.bind B64.ret]. rewrite Hint. reflexivity. }
  right.
  destruct (Z_lt_le_dec N 0) as [Hneg | Hpos].
  { left. split; [reflexivity |]. exists N.
    split; [reflexivity |]. split; [exact Hneg |].
    unfold B64.simulate_battery_scenario, B64.py_div. rewrite Hdt.
    cbn [B64.bind B64.ret]. rewrite Hint. cbn [B64.bind].
    destruct regen_opt as [profile |].
    - cbn [B64.bind B64.ret]. rewrite np_full64_negative by exact Hneg.
      reflexivity.
    - unfold B64.sample_regen_profile.
      rewrite np_linspace64_negative by exact Hneg. reflexivity. }
  right.
  set (n := Z.to_nat N).
  assert (HN : N = Z.of_nat n) by (unfold n; lia).
  assert (Hshort : forall profile, regen_opt = Some profile ->
            (length profile < n)%nat ->
            B64.simulate_battery_scenario np_sin cap init total dt regen_opt
              solar cons = inl B64.IndexError).
  { intros profile -> Hlt.
    unfold B64.simulate_battery_scenario, B64.py_div. rewrite Hdt.
    cbn [B64.bind B64.ret]. rewrite Hint, HN. cbn [B64.bind B64.ret].
    rewrite !np_full64_of_nat. cbn [B64.bind].
    unfold B64.range. rewrite Nat2Z.id.
    rewrite loop_index_error64 by lia. reflexivity. }
  assert (Hlong : match regen_opt with
                  | Some profile => (n <= length profile)%nat
                  | None => True
                  end ->
            exists out,
              match regen_opt with
              | Some profile =>
                  (n <= length profile)%nat /\
                  B64.regen_power_profile out = profile
              | None => length (B64.regen_power_profile out) = n
              end /\
              length (B64.time_minutes out) = n /\
              length (B64.soc_history_kwh out) = n /\
              length (B64.solar_power_profile out) = n /\
              length (B64.net_power_profile out) = n /\
              B64.simulate_battery_scenario np_sin cap init total dt
                regen_opt solar cons = inr out).
  { intros Hlen. rewrite HN in Hint.
    destruct (simulate_run64 np_sin cap init total dt regen_opt solar cons n
                Hdt Hint Hlen) as (regen & HlenN & Hshape & Hrun).
    eexists. split; [| split; [| split; [| split; [| split]]]];
      [ | | | | | exact Hrun];
      cbn [B64.time_minutes B64.soc_history_kwh B64.solar_power_profile
           B64.net_power_profile B64.regen_power_profile].
    - destruct regen_opt as [profile |]; [split |]; assumption.
    - rewrite !length_map. apply length_seq.
    - rewrite length_map, soc_trace64_length. apply firstn_length_le, HlenN.
    - apply repeat_length.
    - rewrite length_map. apply firstn_length_le, HlenN. }
  destruct regen_opt as [profile |].
  - destruct (le_lt_dec n (length profile)) as [Hle | Hlt].
    + right. split; [reflexivity |].
      destruct (Hlong Hle) as (out & H).
      exists n, out. rewrite <- HN. split; [reflexivity | exact H].
    + left. split; [reflexivity |]. exists N, profile.
      split; [reflexivity |]. split; [reflexivity |].
      split; [lia | apply (Hshort profile eq_refl Hlt)].
  - right. split; [reflexivity |].
    destruct (Hlong I) as (out & H).
    exists n, out. rewrite <- HN. split; [reflexivity | exact H].
Qed.

Lemma py_int64_errors (x : float) (e : B64.PyError) :
  B64.py_int x = inl e -> e = B64.ValueError \/ e = B64.OverflowError.
Proof.
  unfold B64.py_int.
  destruct (Prim2SF x) as [s | s | | s m ex]; intros H;
    try discriminate; injection H as <-; auto.
Qed.

(** X1: With float arguments, a zero [dt_sec] of either sign raises
    [ZeroDivisionError] whatever the other arguments are; with a non-zero
    [dt_sec], an infinite binary64 quotient [total_time_sec / dt_sec]
    raises [OverflowError] and a NaN quotient [ValueError]; and a run
    returns only if the step count is defined, is not negative and, for
    a supplied profile, does not exceed the number of its entries. *)
Theorem simulate_errors_binary64 (np_sin : float -> float)
  (cap init total dt : float) (regen_opt : option (list float))
  (solar cons : float) :
  let run := B64.simulate_battery_scenario np_sin cap init total dt
               regen_opt solar cons in
  (PrimFloat.eqb dt 0 = true -> run = inl B64.ZeroDivisionError) /\
  (PrimFloat.eqb dt 0 = false -> PrimFloat.is_infinity (total / dt) = true ->
   run = inl B64.OverflowError) /\
  (PrimFloat.eqb dt 0 = false -> PrimFloat.is_nan (total / dt) = true ->
   run = inl B64.ValueError) /\
  (forall out, run = inr out ->
     PrimFloat.eqb dt 0 = false /\
     exists N, B64.py_int (total / dt) = inr N /\ (0 <= N)%Z /\
       match regen_opt with
       | Some profile => (N <= Z.of_nat (length profile))%Z
       | None => True
       end).
Proof.
  intros run. unfold run.
  pose proof (simulate_cases64 np_sin cap init total dt regen_opt solar cons)
    as Hcases. cbv zeta in Hcases.
  split; [| split; [| split]].
  - intros Hdt.
    destruct Hcases as [[_ H] | [[H _] | [[H _] | [[H _] | [H _]]]]];
      [exact H | | | |]; rewrite Hdt in H; discriminate.
  - intros Hdt Hinf. apply py_int64_infinity in Hinf.
    destruct Hcases
      as [[H _] | [[_ (e & He & H)] | [[_ (N & He & _)]
          | [[_ (N & p & He & _)] | [_ (N & out & He & _)]]]]].
    + rewrite Hdt in H. discriminate.
    + rewrite Hinf in He. injection He as <-. exact H.
    + rewrite Hinf in He. discriminate.
    + rewrite Hinf in He. discriminate.
    + rewrite Hinf in He. discriminate.
  - intros Hdt Hnan. apply py_int64_nan in Hnan.
    destruct Hcases
      as [[H _] | [[_ (e & He & H)] | [[_ (N & He & _)]
          | [[_ (N & p & He & _)] | [_ (N & out & He & _)]]]]].
    + rewrite Hdt in H. discriminate.
    + rewrite Hnan in He. injection He as <-. exact H.
    + rewrite Hnan in He. discriminate.
    + rewrite Hnan in He. discriminate.
    + rewrite Hnan in He. discriminate.
  - intros out Hrun.
    destruct Hcases
      as [[_ H] | [[_ (e & _ & H)] | [[_ (N & _ & _ & H)]
          | [[_ (N & p & _ & _ & _ & H)]
             | [Hdt (N & out' & He & Hshape & _)]]]]];
      try (rewrite H in Hrun; discriminate).
    split; [exact Hdt |]. exists (Z.of_nat N).
    split; [exact He |]. split; [lia |].
    destruct regen_opt as [profile |]; [| exact I].
    destruct Hshape as [Hle _]. lia.
Qed.

(** X2: Without a regen profile, in binary64, a run never raises
    [IndexError], and whenever it returns, the step count
    [N = int(total_time_sec / dt_sec)] is defined and all five returned
    arrays have exactly [N] entries. *)
Theorem generated_run_binary64 (np_sin : float -> float)
  (cap init total dt solar cons : float) :
  let run := B64.simulate_battery_scenario np_sin cap init total dt None
               solar cons in
  run <> inl B64.IndexError /\
  forall out, run = inr out ->
    exists N : nat,
      B64.py_int (total / dt) = inr (Z.of_nat N) /\
      length (B64.time_minutes out) = N /\
      length (B64.soc_history_kwh out) = N /\
      length (B64.regen_power_profile out) = N /\
      length (B64.solar_power_profile out) = N /\
      length (B64.net_power_profile out) = N.
Proof.
  intros run. unfold run.
  pose proof (simulate_cases64 np_sin cap init total dt None solar cons)
    as Hcases. cbv zeta in Hcases.
  destruct Hcases
    as [[_ H] | [[_ (e & He & H)] | [[_ (N & _ & _ & H)]
        | [[_ (N & p & _ & Hsome & _)]
           | [_ (N & out' & He & Hregen & Ht & Hs & Hso & Hn & H)]]]]].
  - rewrite H. split; [discriminate |]. intros out Hout. discriminate.
  - rewrite H. split.
    + destruct (py_int64_errors _ _ He) as [-> | ->]; discriminate.
    + intros out Hout. discriminate.
  - rewrite H. split; [discriminate |]. intros out Hout. discriminate.
  - discriminate.
  - rewrite H. split; [discriminate |]. intros out Hout.
    injection Hout as <-. exists N. repeat split; assumption.
Qed.

(** One second in steps of a tenth: the binary64 quotient [1 / 0.1] is
    10, so the run has ten steps. *)
Example ten_steps_binary64 :
  B64.py_int (1 / 0.1) = inr 10%Z /\
  exists out,
    B64.simulate_battery_scenario (fun t => t) 8 100 1 0.1 None 75 450
      = inr out /\
    length (B64.soc_history_kwh out) = 10%nat /\
    length (B64.regen_power_profile out) = 10%nat.
Proof.
  split; [vm_compute; reflexivity |].
  eexists. split; [vm_compute; reflexivity |].
  split; reflexivity.
Qed.
